(** * The post resolver of the blog server, and its specification

    Source: [src/server/resolvers/post.resolver.ts], the class
    [PostResolver] with its two queries ([post], [Posts]) and its three
    mutations ([createPost], [deletePost], [updatePost]).

    The resolver is straight-line code over an entity manager [ctx.em]:
    it looks entities up, compares object references, schedules
    changes and flushes them, and wraps what the entity manager throws
    into the three Apollo error classes.  The embedding keeps that
    shape: a state-and-exception monad [M] over the entity manager
    [EM], one definition per repository call, and one definition per
    resolver method that follows the method statement by statement. *)

From Stdlib Require Import String List Bool Arith ZArith Lia.
Import ListNotations.
Open Scope string_scope.
Open Scope list_scope.

Set Implicit Arguments.

(** ** Entities

    The entity classes are imported from [../entities/*.entity], which
    is not part of the resolver file.  *)

(** Modelled from the spec: the [User] entity class (section 3, "User:
    unique identifier").  A value of this type is an in-memory object:
    [user_id] is the row it represents and [user_inst] tells apart the
    in-memory objects that represent that row.  Two expressions denote
    the same JavaScript object exactly when both fields agree, so that
    [a === b] is equality of these records.  User objects are never
    assigned to by the resolver, which is what makes it sound to pass
    them by value. *)
Record User := { user_id : string; user_inst : nat }.

(** Modelled from the spec: the [Type] entity class (section 3, "Type: a
    category/tag identifier"); same reading of the two fields. *)
Record Type_ := { type_id : string; type_inst : nat }.

(** Modelled from the spec: the [Draft] entity class (section 3). *)
Record Draft := {
  draft_id : string;
  draft_title : string;
  draft_slug : string;
  draft_body : option string;
  draft_type : Type_;
  draft_writer : User
}.

(** Modelled from the spec: the [Post] entity class (section 3). *)
Record Post := {
  post_id : string;
  post_title : string;
  post_slug : string;
  post_body : option string;
  post_type : Type_;
  post_writer : User
}.

(** [a === b] on [User] objects. *)
Definition same_object (a b : User) : bool :=
  (user_id a =? user_id b) && (user_inst a =? user_inst b)%nat.

(** Assignments to the fields of a [Post] object. *)
Definition set_title (v : string) (p : Post) : Post :=
  {| post_id := post_id p; post_title := v; post_slug := post_slug p;
     post_body := post_body p; post_type := post_type p;
     post_writer := post_writer p |}.

Definition set_slug (v : string) (p : Post) : Post :=
  {| post_id := post_id p; post_title := post_title p; post_slug := v;
     post_body := post_body p; post_type := post_type p;
     post_writer := post_writer p |}.

Definition set_body (v : option string) (p : Post) : Post :=
  {| post_id := post_id p; post_title := post_title p;
     post_slug := post_slug p; post_body := v; post_type := post_type p;
     post_writer := post_writer p |}.

(** Modelled from the spec: the constructor [new Post(draft)] of the
    [Post] entity class (section 4.1, "Constructs a new Post copying
    Draft's fields (title, body, type, writer)").  The slug is not
    copied; the identifier is the one the generator hands out. *)
Definition new_Post (id : string) (draft : Draft) : Post :=
  {| post_id := id;
     post_title := draft_title draft;
     post_slug := "";
     post_body := draft_body draft;
     post_type := draft_type draft;
     post_writer := draft_writer draft |}.

(** ** Input types (lines 28-62) *)

Record PostMutationInput := {
  in_title : string;
  in_slug : string;
  in_body : option string;
  in_type : string
}.

(** A nullable field of a query object as the GraphQL layer hands it
    over: left out, passed as [null], or given. *)
Inductive field :=
| Absent
| Null
| Given (s : string).

Record PostQueryInput := {
  q_id : field;
  q_slug : field;
  q_title : field
}.

Record PostsQueryInput := {
  f_type : option string;
  f_writer : option string
}.

(** The test [if (input.type)] on an optional string: [undefined],
    [null] and the empty string are falsy. *)
Definition truthy (o : option string) : bool :=
  match o with
  | Some s => negb (s =? "")
  | None => false
  end.

(** The value read from an optional string that passed [truthy]. *)
Definition the (o : option string) : string :=
  match o with Some s => s | None => "" end.

(** A JavaScript [number] argument ([limit], [offset]): the rational
    [numerator / denominator], so that negative and fractional values
    are arguments like any other. *)
Record number := {
  numerator : Z;
  denominator : positive
}.

(** The number that is the natural [n]. *)
Definition num (n : nat) : number :=
  {| numerator := Z.of_nat n; denominator := 1 |}.

(** The natural a number is, when it is whole and not negative. *)
Definition natural (x : number) : option nat :=
  if ((0 <=? numerator x)%Z
      && (numerator x mod Zpos (denominator x) =? 0)%Z)%bool
  then Some (Z.to_nat (numerator x / Zpos (denominator x)))
  else None.

(** ** The entity manager *)

(** Modelled from the spec: the backing store behind the entity manager
    (section 6, "typed, repository-style CRUD"), one table per entity in
    the store's default order. *)
Record Store := {
  users : list User;
  types : list Type_;
  drafts : list Draft;
  posts : list Post
}.

(** What a repository call schedules in the unit of work. *)
Inductive change :=
| Persist (p : Post)
| RemoveDraft (d : Draft)
| RemovePost (p : Post)
| Dirty (p : Post).

(** The calls the resolver makes on the entity manager, in the order it
    makes them. *)
Inductive call :=
| Lookup (entity id : string)
| Query (entity : string)
| Schedule (c : change)
| Commit (ok : bool).

(** Modelled from the spec: the request-scoped entity manager [ctx.em]
    (section 5, "one unit-of-work per incoming request").  [pending] is
    the unit of work; [faults] says, flush by flush, whether the store
    rejects the transaction ([true]) or commits it; [fresh] drives the
    identifier generator; [trace] records the calls made so far. *)
Record EM := {
  store : Store;
  pending : list change;
  faults : list bool;
  fresh : nat;
  trace : list call
}.

(** What the entity manager and the resolver throw.  [NotFoundError]
    is what [findOneOrFail] throws, [DriverException] what a rejected
    flush or page throws, [EmptyWhere] the plain [Error] with which
    [findOne] refuses a query object that holds no criterion. *)
Inductive exn :=
| NotFoundError (entity : string)
| DriverException
| EmptyWhere
| AuthenticationError (cause : exn)
| UserInputError (cause : exn)
| ForbiddenError (msg : string).

Inductive result (A : Type) :=
| Ok (a : A)
| Throw (e : exn).

Arguments Ok {A} a.
Arguments Throw {A} e.

(** An [async] method body: it runs on the entity manager and either
    returns or throws; the entity manager is left as the body made it
    in both cases. *)
Definition M (A : Type) : Type := EM -> result A * EM.

Definition ret {A} (a : A) : M A := fun em => (Ok a, em).

Definition throw {A} (e : exn) : M A := fun em => (Throw e, em).

Definition bind {A B} (m : M A) (k : A -> M B) : M B :=
  fun em =>
    match m em with
    | (Ok a, em') => k a em'
    | (Throw e, em') => (Throw e, em')
    end.

(** [try { m } catch (err) { throw new C(err) }]. *)
Definition try_catch {A} (m : M A) (C : exn -> exn) : M A :=
  fun em =>
    match m em with
    | (Ok a, em') => (Ok a, em')
    | (Throw err, em') => (Throw (C err), em')
    end.

Declare Scope resolver_scope.
Delimit Scope resolver_scope with resolver.

Notation "x <- m ;; k" := (bind m (fun x => k))
  (at level 100, m at next level, right associativity) : resolver_scope.
Notation "m ;;; k" := (bind m (fun _ => k))
  (at level 100, right associativity) : resolver_scope.
Notation "'try' m 'catch' C" := (try_catch m C)
  (at level 90, m at next level, C at next level) : resolver_scope.

Open Scope resolver_scope.

Definition log (c : call) (em : EM) : EM :=
  {| store := store em; pending := pending em; faults := faults em;
     fresh := fresh em; trace := trace em ++ [c] |}.

(** The entity manager a request starts with: an empty unit of work
    over the store. *)
Definition fork (s : Store) (fs : list bool) (n : nat) : EM :=
  {| store := s; pending := []; faults := fs; fresh := n; trace := [] |}.

(** [getRepository(E)]: the entity's name, primary key and table. *)
Class Entity (A : Type) := {
  entity_name : string;
  pk : A -> string;
  table : Store -> list A
}.

#[export] Instance User_entity : Entity User :=
  {| entity_name := "User"; pk := user_id; table := users |}.
#[export] Instance Type_entity : Entity Type_ :=
  {| entity_name := "Type"; pk := type_id; table := types |}.
#[export] Instance Draft_entity : Entity Draft :=
  {| entity_name := "Draft"; pk := draft_id; table := drafts |}.
#[export] Instance Post_entity : Entity Post :=
  {| entity_name := "Post"; pk := post_id; table := posts |}.

(** The row a repository holds for an identifier: the first one in
    store order whose primary key is that identifier. *)
Definition lookup (A : Type) `{Entity A} (id : string) (s : Store)
  : option A :=
  find (fun x => pk x =? id) (table s).

Arguments lookup A {_} id s.

(** Modelled from the spec: [repo.findOneOrFail({id})] (section 7, a
    lookup that fails gives a generic "not found" signal). *)
Definition findOneOrFail (A : Type) `{Entity A} (id : string) : M A :=
  fun em =>
    let em' := log (Lookup (entity_name (A:=A)) id) em in
    match lookup A id (store em) with
    | Some x => (Ok x, em')
    | None => (Throw (NotFoundError (entity_name (A:=A))), em')
    end.

Arguments findOneOrFail A {_} id.

(** Modelled from the spec: one criterion of the query object
    [{...input}] (section 4.1, "optional identifier, optional slug,
    optional title").  The spread keeps what the input holds: a field
    left out is no criterion; a field passed as [null] asks for the rows
    where the column is null, and the identifier, slug and title of a
    post never are; a given string asks for that value. *)
Definition criterion (c : field) (v : string) : bool :=
  match c with
  | Absent => true
  | Null => false
  | Given s => s =? v
  end.

Definition meets (input : PostQueryInput) (p : Post) : bool :=
  criterion (q_id input) (post_id p)
  && criterion (q_slug input) (post_slug p)
  && criterion (q_title input) (post_title p).

(** Modelled from the spec: the query object [{...input}] holds no
    criterion (section 4.1, the case "when all are absent"). *)
Definition no_criterion (input : PostQueryInput) : bool :=
  match q_id input, q_slug input, q_title input with
  | Absent, Absent, Absent => true
  | _, _, _ => false
  end.

(** Modelled from the spec: [repo.findOne({...input})] on posts
    (section 4.1, "the first matching Post ... or null"), except for
    the query object without any criterion, which the entity manager
    refuses with a plain [Error] instead of returning a first row. *)
Definition findOne (input : PostQueryInput) : M (option Post) :=
  fun em =>
    if no_criterion input then (Throw EmptyWhere, log (Query "Post") em)
    else (Ok (find (meets input) (posts (store em))),
          log (Query "Post") em).

(** The [filter] object of [Posts]: the resolved type and writer. *)
Record PostFilter := {
  by_type : option Type_;
  by_writer : option User
}.

(** A row matches an entity of the filter by that entity's primary
    key. *)
Definition selects (f : PostFilter) (p : Post) : bool :=
  match by_type f with
  | Some t => type_id (post_type p) =? type_id t
  | None => true
  end
  &&
  match by_writer f with
  | Some w => user_id (post_writer p) =? user_id w
  | None => true
  end.

(** What the database engine makes of a page request that is not a
    pair of naturals (a negative or fractional limit or offset): it
    rejects the query ([None]) or reads the request as some window, an
    optional limit and an offset.  Engines differ here, so the engine's
    answer is a parameter of the development. *)
Definition Engine : Type := number -> number -> option (option nat * nat).

(** Modelled from the spec: the bounds of a page (section 4.1, "bounded
    by limit/offset"), for a limit and an offset that are naturals: a
    positive limit bounds the page, a limit of 0 is no limit at all (the
    entity manager leaves a zero limit out of the query), an offset of 0
    skips nothing.  Any other request is the engine's to answer. *)
Definition paging (engine : Engine) (limit offset : number)
  : option (option nat * nat) :=
  match natural limit, natural offset with
  | Some 0, Some o => Some (None, o)
  | Some (S n), Some o => Some (Some (S n), o)
  | _, _ => engine limit offset
  end.

(** Modelled from the spec: the rows a window selects out of the
    matching rows, in the store's order. *)
Definition window (lim : option nat) (off : nat) (l : list Post)
  : list Post :=
  match lim with
  | Some n => firstn n (skipn off l)
  | None => skipn off l
  end.

(** Modelled from the spec: [repo.find({...filter}, {limit, offset})]
    (section 4.1, "a page of Posts matching the resolved filter, ordered
    by the underlying store's default order, bounded by limit/offset"):
    the window of the matching rows, in store order, or the engine's
    exception when it rejects the page request. *)
Definition find_page (engine : Engine) (f : PostFilter)
  (limit offset : number) : M (list Post) :=
  fun em =>
    match paging engine limit offset with
    | Some (lim, off) =>
        (Ok (window lim off (filter (selects f) (posts (store em)))),
         log (Query "Post") em)
    | None => (Throw DriverException, log (Query "Post") em)
    end.

Definition schedule (c : change) : M unit :=
  fun em =>
    (Ok tt,
     {| store := store em; pending := pending em ++ [c];
        faults := faults em; fresh := fresh em;
        trace := trace em ++ [Schedule c] |}).

(** [repo.persist(post)], [repo.remove(draft)], [repo.remove(post)], and
    the assignments to a managed post, which the unit of work finds at
    the next flush. *)
Definition persist (p : Post) : M unit := schedule (Persist p).
Definition remove_draft (d : Draft) : M unit := schedule (RemoveDraft d).
Definition remove_post (p : Post) : M unit := schedule (RemovePost p).
Definition assigned (p : Post) : M unit := schedule (Dirty p).

(** Modelled from the spec: what a committed change does to the store.
    An insert appends a row; a delete and an update act on the rows
    with the entity's primary key. *)
Definition apply_change (s : Store) (c : change) : Store :=
  match c with
  | Persist p =>
      {| users := users s; types := types s; drafts := drafts s;
         posts := posts s ++ [p] |}
  | RemoveDraft d =>
      {| users := users s; types := types s;
         drafts := filter (fun x => negb (draft_id x =? draft_id d)) (drafts s);
         posts := posts s |}
  | RemovePost p =>
      {| users := users s; types := types s; drafts := drafts s;
         posts := filter (fun x => negb (post_id x =? post_id p)) (posts s) |}
  | Dirty p =>
      {| users := users s; types := types s; drafts := drafts s;
         posts := map (fun x => if post_id x =? post_id p then p else x)
                      (posts s) |}
  end.

(** Modelled from the spec: [flush()] (section 7, "a persistence/flush
    operation fails (constraint violation, store error)").  A rejected
    transaction leaves the store as it was and throws; a committed one
    applies the unit of work.  The unit of work is empty afterwards. *)
Definition flush : M unit :=
  fun em =>
    match faults em with
    | true :: fs =>
        (Throw DriverException,
         {| store := store em; pending := []; faults := fs;
            fresh := fresh em; trace := trace em ++ [Commit false] |})
    | _ =>
        (Ok tt,
         {| store := fold_left apply_change (pending em) (store em);
            pending := []; faults := tl (faults em);
            fresh := fresh em; trace := trace em ++ [Commit true] |})
    end.

(** An argument with a [defaultValue]: [None] is the argument not
    supplied. *)
Definition default (d : number) (o : option number) : number :=
  match o with Some n => n | None => d end.

Section PostResolver.

(** The identifier generator of the entity classes, which the resolver
    file does not contain. *)
Variable uuid : nat -> string.

(** The database engine behind [ctx.em]. *)
Variable engine : Engine.

(** [new Post(draft)] with the identifier drawn from the generator. *)
Definition construct (draft : Draft) : M Post :=
  fun em =>
    (Ok (new_Post (uuid (fresh em)) draft),
     {| store := store em; pending := pending em; faults := faults em;
        fresh := S (fresh em); trace := trace em |}).

(** ** The resolver (lines 65-198) *)

(** [post] (lines 67-77). *)
Definition post (input : PostQueryInput) : M (option Post) :=
  p <- findOne input ;;
  ret p.

(** [Posts] (lines 80-113). *)
Definition Posts (input : PostsQueryInput) (limit offset : option number)
  : M (list Post) :=
  let limit := default (num 10) limit in
  let offset := default (num 0) offset in
  ftype <-
    (if truthy (f_type input) then
       t <- (try findOneOrFail Type_ (the (f_type input))
             catch UserInputError) ;;
       ret (Some t)
     else ret None) ;;
  fwriter <-
    (if truthy (f_writer input) then
       w <- (try findOneOrFail User (the (f_writer input))
             catch UserInputError) ;;
       ret (Some w)
     else ret None) ;;
  find_page engine {| by_type := ftype; by_writer := fwriter |} limit offset.

(** [createPost] (lines 115-145); [req_user] is [ctx.req.user]. *)
Definition createPost (draft_id slug : string) (req_user : string) : M Post :=
  user <- (try findOneOrFail User req_user catch AuthenticationError) ;;
  draft <- (try findOneOrFail Draft draft_id catch UserInputError) ;;
  if negb (same_object (draft_writer draft) user) then
    throw (ForbiddenError "User is not the writer of this draft")
  else
    p <- construct draft ;;
    let p := set_slug slug p in
    (try (persist p ;;; flush) catch UserInputError) ;;;
    (try (remove_draft draft ;;; flush) catch UserInputError) ;;;
    ret p.

(** [deletePost] (lines 147-168). *)
Definition deletePost (id : string) (req_user : string) : M bool :=
  user <- (try findOneOrFail User req_user catch AuthenticationError) ;;
  p <- (try findOneOrFail Post id catch UserInputError) ;;
  if negb (same_object user (post_writer p)) then
    throw (ForbiddenError "User is not the writer of this post")
  else
    (remove_post p ;;; flush) ;;;
    ret true.

(** [updatePost] (lines 170-197). *)
Definition updatePost (id : string) (input : PostMutationInput)
  (req_user : string) : M Post :=
  user <- (try findOneOrFail User req_user catch AuthenticationError) ;;
  p <- (try findOneOrFail Post id catch UserInputError) ;;
  if negb (same_object user (post_writer p)) then
    throw (ForbiddenError "User is not the writer of the post")
  else
    let p := set_title (in_title input) p in
    let p := set_slug (in_slug input) p in
    let p := set_body (in_body input) p in
    assigned p ;;;
    (try flush catch UserInputError) ;;;
    ret p.

End PostResolver.

(** ** Vocabulary of the specification *)

(** The first [k] flushes of a request are committed by the store. *)
Definition commits (k : nat) (fs : list bool) : bool :=
  forallb negb (firstn k fs).

(** The user objects a store hands out: those of the user repository
    and the writers its drafts and posts point to. *)
Definition user_objects (s : Store) : list User :=
  users s ++ map draft_writer (drafts s) ++ map post_writer (posts s).

(** The data-access layer keeps an identity map: a user row is
    represented by one in-memory object. *)
Definition identity_map (s : Store) : bool :=
  forallb
    (fun a =>
       forallb (fun b => implb (user_id a =? user_id b) (same_object a b))
               (user_objects s))
    (user_objects s).

(** A result is the resolver's refusal of a caller who is not the
    writer. *)
Definition forbidden {A} (r : result A) : Prop :=
  exists msg, r = Throw (ForbiddenError msg).

Definition input_error {A} (r : result A) : Prop :=
  exists cause, r = Throw (UserInputError cause).

(** The entity manager after the two lookups at the head of a
    mutation. *)
Definition looked_up (entity id req_user : string) (em : EM) : EM :=
  log (Lookup entity id) (log (Lookup "User" req_user) em).

(** The post [createPost] builds from a draft (lines 136-137). *)
Definition promoted (uuid : nat -> string) (n : nat) (slug : string)
  (d : Draft) : Post :=
  set_slug slug (new_Post (uuid n) d).

(** The post after the three assignments of [updatePost]
    (lines 190-192). *)
Definition updated (input : PostMutationInput) (p : Post) : Post :=
  set_body (in_body input) (set_slug (in_slug input)
    (set_title (in_title input) p)).

(** The page [Posts] gets from the repository for its two arguments,
    out of the rows [l] that match. *)
Definition page (engine : Engine) (limit offset : option number)
  (l : list Post) : result (list Post) :=
  match paging engine (default (num 10) limit) (default (num 0) offset) with
  | Some (lim, off) => Ok (window lim off l)
  | None => Throw DriverException
  end.

Definition of_type (tid : string) (p : Post) : bool :=
  type_id (post_type p) =? tid.

(** The claim about unresolved identifiers in [Posts], read for every
    identifier the client may send. *)
Definition unresolved_type_is_input_error (engine : Engine)
  (tid : string) (limit offset : option number) (em : EM) : Prop :=
  lookup Type_ tid (store em) = None ->
  input_error
    (fst (Posts engine {| f_type := Some tid; f_writer := None |}
            limit offset em)).

(** The claim about the type filter of [Posts], read for every
    identifier the client may send. *)
Definition only_posts_of_type (engine : Engine)
  (tid : string) (limit offset : option number) (em : EM) : Prop :=
  forall l : list Post,
    fst (Posts engine {| f_type := Some tid; f_writer := None |}
           limit offset em)
    = Ok l ->
    forall p, In p l -> type_id (post_type p) = tid.

(** ** A small blog

    Sample data on which the statements below are exercised. *)

Definition gen (n : nat) : string := "post-new".

(** An engine that rejects every page request that is not a pair of
    naturals. *)
Definition strict : Engine := fun _ _ => None.

Definition alice : User := {| user_id := "alice"; user_inst := 0 |}.
Definition bob : User := {| user_id := "bob"; user_inst := 0 |}.

Definition news : Type_ := {| type_id := "news"; type_inst := 0 |}.

Definition draft1 : Draft :=
  {| draft_id := "d1"; draft_title := "On lists"; draft_slug := "lists";
     draft_body := Some "Lists are fine."; draft_type := news;
     draft_writer := alice |}.

Definition post1 : Post :=
  {| post_id := "p1"; post_title := "On maps"; post_slug := "maps";
     post_body := None; post_type := news; post_writer := alice |}.

Definition blog : Store :=
  {| users := [alice; bob]; types := [news]; drafts := [draft1];
     posts := [post1] |}.

Definition edit : PostMutationInput :=
  {| in_title := "On sets"; in_slug := "sets"; in_body := Some "Sets.";
     in_type := "news" |}.

(** The same edit with another [type] field. *)
Definition edit_other_type : PostMutationInput :=
  {| in_title := "On sets"; in_slug := "sets"; in_body := Some "Sets.";
     in_type := "sports" |}.

(** A result that is a value or one of the three Apollo errors the
    resolver constructs (lines 16-20). *)
Definition typed {A} (r : result A) : Prop :=
  match r with
  | Ok _ => True
  | Throw (AuthenticationError _) => True
  | Throw (UserInputError _) => True
  | Throw (ForbiddenError _) => True
  | Throw _ => False
  end.

(** The posts a [Posts] query asks for: those of the type identifier
    when it is truthy, and of the writer identifier when it is truthy. *)
Definition wanted (input : PostsQueryInput) (p : Post) : bool :=
  (negb (truthy (f_type input))
   || (type_id (post_type p) =? the (f_type input)))
  && (negb (truthy (f_writer input))
      || (user_id (post_writer p) =? the (f_writer input))).

(** A query by identifier alone. *)
Definition by_id (id : string) : PostQueryInput :=
  {| q_id := Given id; q_slug := Absent; q_title := Absent |}.

(** A second post of the small blog, by bob, and the blog with both. *)
Definition post2 : Post :=
  {| post_id := "p2"; post_title := "On trees"; post_slug := "trees";
     post_body := Some "Trees."; post_type := news; post_writer := bob |}.

Definition blog2 : Store :=
  {| users := [alice; bob]; types := [news]; drafts := [draft1];
     posts := [post1; post2] |}.

(** An archive of fifty posts, news and sports in turn: the news posts
    are "A" to "Y", the sports posts "a" to "y", written by alice and
    bob in turn. *)
Definition sports : Type_ := {| type_id := "sports"; type_inst := 0 |}.

Definition article (t : Type_) (base k : nat) : Post :=
  {| post_id := String (Ascii.ascii_of_nat (base + k)) "";
     post_title := "Article"; post_slug := "article"; post_body := None;
     post_type := t; post_writer := if Nat.even k then alice else bob |}.

Definition archive : Store :=
  {| users := [alice; bob]; types := [news; sports]; drafts := [];
     posts := flat_map (fun k => [article news 65 k; article sports 97 k])
                (seq 0 25) |}.

(** ** Basic facts *)

Unset Implicit Arguments.

Lemma same_object_true (a b : User) : same_object a b = true <-> a = b.
Proof.
  unfold same_object. rewrite andb_true_iff, String.eqb_eq, Nat.eqb_eq.
  destruct a as [ia na], b as [ib nb]; simpl. split.
  - intros [-> ->]. reflexivity.
  - intros E. inversion E. split; reflexivity.
Qed.

Lemma same_object_false (a b : User) : same_object a b = false <-> a <> b.
Proof.
  rewrite <- not_true_iff_false, same_object_true. reflexivity.
Qed.

Lemma same_object_refl (a : User) : same_object a a = true.
Proof. apply same_object_true. reflexivity. Qed.

Lemma store_log (c : call) (em : EM) : store (log c em) = store em.
Proof. reflexivity. Qed.

Lemma lookup_pk (A : Type) `{Entity A} (id : string) (s : Store) (x : A) :
  lookup A id s = Some x -> pk x = id.
Proof.
  unfold lookup. intros Hf. apply find_some in Hf.
  apply String.eqb_eq, Hf.
Qed.

Lemma lookup_In (A : Type) `{Entity A} (id : string) (s : Store) (x : A) :
  lookup A id s = Some x -> In x (table s).
Proof.
  unfold lookup. intros Hf. apply find_some in Hf. apply Hf.
Qed.

Lemma findOneOrFail_found (A : Type) `{Entity A} (id : string) (em : EM)
  (x : A) :
  lookup A id (store em) = Some x ->
  findOneOrFail A id em = (Ok x, log (Lookup (entity_name (A:=A)) id) em).
Proof. unfold findOneOrFail. intros ->. reflexivity. Qed.

Lemma findOneOrFail_missing (A : Type) `{Entity A} (id : string) (em : EM) :
  lookup A id (store em) = None ->
  findOneOrFail A id em
  = (Throw (NotFoundError (entity_name (A:=A))),
     log (Lookup (entity_name (A:=A)) id) em).
Proof. unfold findOneOrFail. intros ->. reflexivity. Qed.

(** The guarded lookup at the head of the three mutations. *)
Lemma authenticate_found (req_user : string) (em : EM) (u : User) :
  lookup User req_user (store em) = Some u ->
  (try findOneOrFail User req_user catch AuthenticationError) em
  = (Ok u, log (Lookup "User" req_user) em).
Proof.
  intros Hu. unfold try_catch. erewrite findOneOrFail_found by eassumption.
  reflexivity.
Qed.

Lemma authenticate_missing (req_user : string) (em : EM) :
  lookup User req_user (store em) = None ->
  (try findOneOrFail User req_user catch AuthenticationError) em
  = (Throw (AuthenticationError (NotFoundError "User")),
     log (Lookup "User" req_user) em).
Proof.
  intros Hu. unfold try_catch. erewrite findOneOrFail_missing by eassumption.
  reflexivity.
Qed.

Lemma resolve_found (A : Type) `{Entity A} (id : string) (em : EM) (x : A) :
  lookup A id (store em) = Some x ->
  (try findOneOrFail A id catch UserInputError) em
  = (Ok x, log (Lookup (entity_name (A:=A)) id) em).
Proof.
  intros Hx. unfold try_catch. erewrite findOneOrFail_found by eassumption.
  reflexivity.
Qed.

Lemma resolve_missing (A : Type) `{Entity A} (id : string) (em : EM) :
  lookup A id (store em) = None ->
  (try findOneOrFail A id catch UserInputError) em
  = (Throw (UserInputError (NotFoundError (entity_name (A:=A)))),
     log (Lookup (entity_name (A:=A)) id) em).
Proof.
  intros Hx. unfold try_catch. erewrite findOneOrFail_missing by eassumption.
  reflexivity.
Qed.

Lemma bind_ok (A B : Type) (m : M A) (k : A -> M B) (em em' : EM) (a : A) :
  m em = (Ok a, em') -> bind m k em = k a em'.
Proof. unfold bind. intros ->. reflexivity. Qed.

Lemma bind_throw (A B : Type) (m : M A) (k : A -> M B) (em em' : EM)
  (e : exn) :
  m em = (Throw e, em') -> bind m k em = (Throw e, em').
Proof. unfold bind. intros ->. reflexivity. Qed.

(** ** Authentication comes first *)

Section Claims.

Variable uuid : nat -> string.
Variable engine : Engine.

(** C9. In each of the three mutations, when [ctx.req.user] does not
    resolve to a user the method throws an AuthenticationError, and the
    only thing that happened to the entity manager is that one lookup
    of the user: no other entity was looked up, nothing was scheduled,
    no flush ran, the store is as it was. *)
Theorem authentication_first
  (em : EM) (req_user draft_id slug id : string) (input : PostMutationInput)
  (Hnone : lookup User req_user (store em) = None) :
  createPost uuid draft_id slug req_user em
  = (Throw (AuthenticationError (NotFoundError "User")),
     log (Lookup "User" req_user) em)
  /\ deletePost id req_user em
     = (Throw (AuthenticationError (NotFoundError "User")),
        log (Lookup "User" req_user) em)
  /\ updatePost id input req_user em
     = (Throw (AuthenticationError (NotFoundError "User")),
        log (Lookup "User" req_user) em).
Proof.
  pose proof (authenticate_missing req_user em Hnone) as Ha.
  repeat split.
  - unfold createPost. eapply bind_throw, Ha.
  - unfold deletePost. eapply bind_throw, Ha.
  - unfold updatePost. eapply bind_throw, Ha.
Qed.

(** ** The two lookups at the head of a mutation *)

Lemma createPost_head (em : EM) (draft_id slug req_user : string)
  (u : User) (d : Draft) :
  lookup User req_user (store em) = Some u ->
  lookup Draft draft_id (store em) = Some d ->
  createPost uuid draft_id slug req_user em
  = (if negb (same_object (draft_writer d) u) then
       throw (ForbiddenError "User is not the writer of this draft")
     else
       p <- construct uuid d ;;
       let p := set_slug slug p in
       (try (persist p ;;; flush) catch UserInputError) ;;;
       (try (remove_draft d ;;; flush) catch UserInputError) ;;;
       ret p) (looked_up "Draft" draft_id req_user em).
Proof.
  intros Hu Hd. unfold createPost.
  erewrite bind_ok by (apply authenticate_found; eassumption).
  erewrite bind_ok by (apply (resolve_found Draft); rewrite store_log;
                       eassumption).
  reflexivity.
Qed.

Lemma deletePost_head (em : EM) (id req_user : string) (u : User) (p : Post) :
  lookup User req_user (store em) = Some u ->
  lookup Post id (store em) = Some p ->
  deletePost id req_user em
  = (if negb (same_object u (post_writer p)) then
       throw (ForbiddenError "User is not the writer of this post")
     else
       (remove_post p ;;; flush) ;;;
       ret true) (looked_up "Post" id req_user em).
Proof.
  intros Hu Hp. unfold deletePost.
  erewrite bind_ok by (apply authenticate_found; eassumption).
  erewrite bind_ok by (apply (resolve_found Post); rewrite store_log;
                       eassumption).
  reflexivity.
Qed.

Lemma updatePost_head (em : EM) (id req_user : string)
  (input : PostMutationInput) (u : User) (p : Post) :
  lookup User req_user (store em) = Some u ->
  lookup Post id (store em) = Some p ->
  updatePost id input req_user em
  = (if negb (same_object u (post_writer p)) then
       throw (ForbiddenError "User is not the writer of the post")
     else
       let p := set_title (in_title input) p in
       let p := set_slug (in_slug input) p in
       let p := set_body (in_body input) p in
       assigned p ;;;
       (try flush catch UserInputError) ;;;
       ret p) (looked_up "Post" id req_user em).
Proof.
  intros Hu Hp. unfold updatePost.
  erewrite bind_ok by (apply authenticate_found; eassumption).
  erewrite bind_ok by (apply (resolve_found Post); rewrite store_log;
                       eassumption).
  reflexivity.
Qed.

(** The owner's branch of each mutation never throws a ForbiddenError:
    what it can throw comes from a flush. *)
Lemma createPost_owner_not_forbidden (d : Draft) (slug : string) (em : EM) :
  ~ forbidden
      (fst ((p <- construct uuid d ;;
             let p := set_slug slug p in
             (try (persist p ;;; flush) catch UserInputError) ;;;
             (try (remove_draft d ;;; flush) catch UserInputError) ;;;
             ret p) em)).
Proof.
  intros [msg Hm]. revert Hm.
  unfold bind, try_catch, construct, persist, remove_draft, schedule, ret,
    flush.
  cbn [faults].
  destruct (faults em) as [|[|] [|[|] fs]]; cbn; discriminate.
Qed.

Lemma deletePost_owner_not_forbidden (p : Post) (em : EM) :
  ~ forbidden (fst (((remove_post p ;;; flush) ;;; ret true) em)).
Proof.
  intros [msg Hm]. revert Hm.
  unfold bind, remove_post, schedule, ret, flush. cbn [faults].
  destruct (faults em) as [|[|] fs]; cbn; discriminate.
Qed.

Lemma updatePost_owner_not_forbidden (p : Post) (em : EM) :
  ~ forbidden
      (fst ((assigned p ;;; (try flush catch UserInputError) ;;; ret p)
              em)).
Proof.
  intros [msg Hm]. revert Hm.
  unfold bind, try_catch, assigned, schedule, ret, flush. cbn [faults].
  destruct (faults em) as [|[|] fs]; cbn; discriminate.
Qed.

Lemma throw_forbidden (A : Type) (msg : string) (em : EM) :
  forbidden (fst (throw (A:=A) (ForbiddenError msg) em)).
Proof. exists msg. reflexivity. Qed.

Lemma identity_map_one_object (s : Store) (a b : User) :
  identity_map s = true ->
  In a (user_objects s) -> In b (user_objects s) ->
  user_id a = user_id b -> a = b.
Proof.
  unfold identity_map. intros Hm Ha Hb E.
  rewrite forallb_forall in Hm. specialize (Hm a Ha).
  rewrite forallb_forall in Hm. specialize (Hm b Hb).
  apply String.eqb_eq in E. rewrite E in Hm.
  apply same_object_true, Hm.
Qed.

Lemma draft_writer_object (s : Store) (id : string) (d : Draft) :
  lookup Draft id s = Some d -> In (draft_writer d) (user_objects s).
Proof.
  intros Hd. apply lookup_In in Hd. unfold user_objects.
  apply in_or_app. right. apply in_or_app. left.
  apply in_map, Hd.
Qed.

Lemma post_writer_object (s : Store) (id : string) (p : Post) :
  lookup Post id s = Some p -> In (post_writer p) (user_objects s).
Proof.
  intros Hp. apply lookup_In in Hp. unfold user_objects.
  apply in_or_app. right. apply in_or_app. right.
  apply in_map, Hp.
Qed.

Lemma acting_user_object (s : Store) (id : string) (u : User) :
  lookup User id s = Some u -> In u (user_objects s).
Proof.
  intros Hu. apply lookup_In in Hu. unfold user_objects.
  apply in_or_app. left. apply Hu.
Qed.

(** Under the identity map, being another object than the acting user
    is having another identifier than the request's. *)
Lemma other_object_other_id (s : Store) (req_user : string) (u w : User) :
  identity_map s = true ->
  lookup User req_user s = Some u ->
  In w (user_objects s) ->
  (w <> u <-> user_id w <> req_user).
Proof.
  intros Hm Hu Hw. pose proof (lookup_pk User _ _ _ Hu) as Hid.
  simpl in Hid. split.
  - intros Hne E. apply Hne.
    apply (identity_map_one_object s); auto.
    + eapply acting_user_object; eassumption.
    + congruence.
  - intros Hne E. subst w. auto.
Qed.

(** ** Ownership *)

Lemma createPost_forbidden_iff (em : EM) (draft_id slug req_user : string)
  (u : User) (d : Draft) :
  lookup User req_user (store em) = Some u ->
  lookup Draft draft_id (store em) = Some d ->
  (forbidden (fst (createPost uuid draft_id slug req_user em))
   <-> draft_writer d <> u).
Proof.
  intros Hu Hd.
  rewrite (createPost_head em draft_id slug req_user u d Hu Hd).
  destruct (same_object (draft_writer d) u) eqn:E; cbn [negb].
  - apply same_object_true in E. split.
    + intros Hf. exfalso.
      exact (createPost_owner_not_forbidden d slug _ Hf).
    + intros Hne. contradiction.
  - apply same_object_false in E. split; [intros _; exact E|].
    intros _. apply throw_forbidden.
Qed.

Lemma deletePost_forbidden_iff (em : EM) (id req_user : string)
  (u : User) (p : Post) :
  lookup User req_user (store em) = Some u ->
  lookup Post id (store em) = Some p ->
  (forbidden (fst (deletePost id req_user em)) <-> post_writer p <> u).
Proof.
  intros Hu Hp. rewrite (deletePost_head em id req_user u p Hu Hp).
  destruct (same_object u (post_writer p)) eqn:E; cbn [negb].
  - apply same_object_true in E. split.
    + intros Hf. exfalso. exact (deletePost_owner_not_forbidden p _ Hf).
    + intros Hne. congruence.
  - apply same_object_false in E. split; [intros _; congruence|].
    intros _. apply throw_forbidden.
Qed.

Lemma updatePost_forbidden_iff (em : EM) (id req_user : string)
  (input : PostMutationInput) (u : User) (p : Post) :
  lookup User req_user (store em) = Some u ->
  lookup Post id (store em) = Some p ->
  (forbidden (fst (updatePost id input req_user em))
   <-> post_writer p <> u).
Proof.
  intros Hu Hp. rewrite (updatePost_head em id req_user input u p Hu Hp).
  destruct (same_object u (post_writer p)) eqn:E; cbn [negb].
  - apply same_object_true in E. split.
    + intros Hf. exfalso.
      exact (updatePost_owner_not_forbidden _ _ Hf).
    + intros Hne. congruence.
  - apply same_object_false in E. split; [intros _; congruence|].
    intros _. apply throw_forbidden.
Qed.

(** What the three checks compare, at the level of objects: once the
    acting user and the target resolve, the call is refused with a
    ForbiddenError exactly when the target's writer and the acting user
    are not the same in-memory object; on a store with one object per
    user row, exactly when the writer's identifier is not the
    request's. *)
Lemma ownership_compares_objects
  (em : EM) (req_user : string) (u : User)
  (Hu : lookup User req_user (store em) = Some u) :
  (forall (draft_id slug : string) (d : Draft),
      lookup Draft draft_id (store em) = Some d ->
      (forbidden (fst (createPost uuid draft_id slug req_user em))
       <-> draft_writer d <> u)
      /\ (identity_map (store em) = true ->
          (forbidden (fst (createPost uuid draft_id slug req_user em))
           <-> user_id (draft_writer d) <> req_user)))
  /\ (forall (id : string) (input : PostMutationInput) (p : Post),
        lookup Post id (store em) = Some p ->
        (forbidden (fst (deletePost id req_user em))
         <-> post_writer p <> u)
        /\ (forbidden (fst (updatePost id input req_user em))
            <-> post_writer p <> u)
        /\ (identity_map (store em) = true ->
            (forbidden (fst (deletePost id req_user em))
             <-> user_id (post_writer p) <> req_user)
            /\ (forbidden (fst (updatePost id input req_user em))
                <-> user_id (post_writer p) <> req_user))).
Proof.
  split.
  - intros draft_id slug d Hd.
    pose proof (createPost_forbidden_iff em draft_id slug req_user u d
                  Hu Hd) as Hc.
    split; [exact Hc|]. intros Hm. rewrite Hc.
    apply (other_object_other_id (store em) req_user u); auto.
    eapply draft_writer_object; eassumption.
  - intros id input p Hp.
    pose proof (deletePost_forbidden_iff em id req_user u p Hu Hp) as Hdel.
    pose proof (updatePost_forbidden_iff em id req_user input u p Hu Hp)
      as Hupd.
    split; [exact Hdel|]. split; [exact Hupd|]. intros Hm.
    rewrite Hdel, Hupd.
    assert (Hw : post_writer p <> u <-> user_id (post_writer p) <> req_user).
    { apply (other_object_other_id (store em) req_user u); auto.
      eapply post_writer_object; eassumption. }
    split; exact Hw.
Qed.


(** C4. A mutation attempted by a resolved user who is not the writer of
    the target throws a ForbiddenError and leaves the store, and the
    unit of work, as they were: [createPost] keeps the draft and creates
    no post, [updatePost] and [deletePost] keep the post.  The entity
    manager differs from the initial one by the two lookups only. *)
Theorem not_writer_forbidden_store_unchanged
  (em : EM) (req_user : string) (u : User)
  (Hu : lookup User req_user (store em) = Some u) :
  (forall (draft_id slug : string) (d : Draft),
      lookup Draft draft_id (store em) = Some d ->
      draft_writer d <> u ->
      forbidden (fst (createPost uuid draft_id slug req_user em))
      /\ snd (createPost uuid draft_id slug req_user em)
         = looked_up "Draft" draft_id req_user em
      /\ store (snd (createPost uuid draft_id slug req_user em)) = store em
      /\ lookup Draft draft_id
           (store (snd (createPost uuid draft_id slug req_user em)))
         = Some d)
  /\ (forall (id : string) (input : PostMutationInput) (p : Post),
        lookup Post id (store em) = Some p ->
        post_writer p <> u ->
        (forbidden (fst (updatePost id input req_user em))
         /\ snd (updatePost id input req_user em)
            = looked_up "Post" id req_user em
         /\ store (snd (updatePost id input req_user em)) = store em
         /\ lookup Post id (store (snd (updatePost id input req_user em)))
            = Some p)
        /\ (forbidden (fst (deletePost id req_user em))
            /\ snd (deletePost id req_user em)
               = looked_up "Post" id req_user em
            /\ store (snd (deletePost id req_user em)) = store em
            /\ lookup Post id (store (snd (deletePost id req_user em)))
               = Some p)).
Proof.
  split.
  - intros draft_id slug d Hd Hnd. apply same_object_false in Hnd.
    rewrite (createPost_head em draft_id slug req_user u d Hu Hd).
    rewrite Hnd. cbn [negb fst snd throw].
    unfold looked_up. rewrite !store_log.
    repeat split; try assumption. eexists; reflexivity.
  - intros id input p Hp Hnp.
    assert (Hnp' : same_object u (post_writer p) = false).
    { apply same_object_false. congruence. }
    rewrite (updatePost_head em id req_user input u p Hu Hp).
    rewrite (deletePost_head em id req_user u p Hu Hp).
    rewrite Hnp'. cbn [negb fst snd throw].
    unfold looked_up. rewrite !store_log.
    repeat split; try assumption; eexists; reflexivity.
Qed.

(** ** Promoting a draft *)

Lemma find_after_delete (A : Type) (key : A -> string) (id : string)
  (l : list A) :
  find (fun x => key x =? id) (filter (fun x => negb (key x =? id)) l)
  = None.
Proof.
  induction l as [|a l IH]; simpl; [reflexivity|].
  destruct (key a =? id) eqn:E; simpl; [exact IH|].
  rewrite E. exact IH.
Qed.

Lemma not_in_after_delete (A : Type) (key : A -> string) (a : A)
  (l : list A) :
  ~ In a (filter (fun x => negb (key x =? key a)) l).
Proof.
  intros Hin. apply filter_In in Hin. destruct Hin as [_ Hk].
  rewrite String.eqb_refl in Hk. discriminate.
Qed.

(** C2. The two persistence steps of [createPost] are sequential and
    dependent.  When the store rejects the flush of the new post, a
    UserInputError is thrown and the store is as it was, so the draft
    is still there.  When the post was committed and the store rejects
    the flush that removes the draft, a UserInputError is thrown as
    well (the post is then in the store next to the draft). *)
Theorem createPost_steps_dependent
  (s : Store) (fs : list bool) (n : nat) (draft_id slug req_user : string)
  (u : User) (d : Draft)
  (Hu : lookup User req_user s = Some u)
  (Hd : lookup Draft draft_id s = Some d)
  (Hown : draft_writer d = u) :
  (fst (createPost uuid draft_id slug req_user (fork s (true :: fs) n))
   = Throw (UserInputError DriverException)
   /\ store (snd (createPost uuid draft_id slug req_user
                    (fork s (true :: fs) n))) = s
   /\ lookup Draft draft_id
        (store (snd (createPost uuid draft_id slug req_user
                       (fork s (true :: fs) n)))) = Some d)
  /\ (fst (createPost uuid draft_id slug req_user
            (fork s (false :: true :: fs) n))
      = Throw (UserInputError DriverException)
      /\ posts (store (snd (createPost uuid draft_id slug req_user
                             (fork s (false :: true :: fs) n))))
         = posts s ++ [promoted uuid n slug d]
      /\ drafts (store (snd (createPost uuid draft_id slug req_user
                              (fork s (false :: true :: fs) n))))
         = drafts s).
Proof.
  rewrite (createPost_head (fork s (true :: fs) n) draft_id slug req_user
             u d Hu Hd).
  rewrite (createPost_head (fork s (false :: true :: fs) n) draft_id slug
             req_user u d Hu Hd).
  rewrite Hown, same_object_refl. cbn.
  repeat split; assumption.
Qed.

(** C3. For a draft [D] of the store whose writer is the acting user
    [U], [createPost(D.id, slug)] run as [U] on a store that commits
    both flushes returns a post that is then in the store, whose title,
    body, type and writer are those of [D] and whose slug is the
    argument; no draft with [D]'s identifier is left. *)
Theorem createPost_promotes_draft
  (s : Store) (fs : list bool) (n : nat) (slug req_user : string)
  (U : User) (D : Draft)
  (Hu : lookup User req_user s = Some U)
  (Hd : lookup Draft (draft_id D) s = Some D)
  (Hown : draft_writer D = U)
  (Hok : commits 2 fs = true) :
  exists p : Post,
    fst (createPost uuid (draft_id D) slug req_user (fork s fs n)) = Ok p
    /\ In p (posts (store (snd (createPost uuid (draft_id D) slug req_user
                                  (fork s fs n)))))
    /\ post_title p = draft_title D
    /\ post_body p = draft_body D
    /\ post_type p = draft_type D
    /\ post_writer p = draft_writer D
    /\ post_slug p = slug
    /\ lookup Draft (draft_id D)
         (store (snd (createPost uuid (draft_id D) slug req_user
                        (fork s fs n)))) = None
    /\ ~ In D (drafts (store (snd (createPost uuid (draft_id D) slug
                                     req_user (fork s fs n))))).
Proof.
  exists (promoted uuid n slug D).
  rewrite (createPost_head (fork s fs n) (draft_id D) slug req_user U D
             Hu Hd).
  replace (same_object (draft_writer D) U) with true
    by (symmetry; apply same_object_true; exact Hown).
  destruct fs as [|[|] [|[|] fs]]; try discriminate Hok; cbn;
    repeat split;
    first [ apply in_or_app; right; left; reflexivity
          | apply (find_after_delete Draft draft_id)
          | apply (not_in_after_delete Draft draft_id) ].
Qed.

(** ** Updating and deleting a post *)

(** C7. A successful [updatePost] by the writer returns the target post
    with title, slug and body overwritten from the input and with its
    identifier, type and writer as they were; in the store the users,
    types and drafts are untouched, the rows of the target's identifier
    hold the returned post, and every other post is the row it was. *)
Theorem updatePost_changes_three_fields
  (s : Store) (fs : list bool) (n : nat) (id req_user : string)
  (input : PostMutationInput) (u : User) (p0 : Post)
  (Hu : lookup User req_user s = Some u)
  (Hp : lookup Post id s = Some p0)
  (Hown : post_writer p0 = u)
  (Hok : commits 1 fs = true) :
  fst (updatePost id input req_user (fork s fs n)) = Ok (updated input p0)
  /\ post_title (updated input p0) = in_title input
  /\ post_slug (updated input p0) = in_slug input
  /\ post_body (updated input p0) = in_body input
  /\ post_id (updated input p0) = post_id p0
  /\ post_type (updated input p0) = post_type p0
  /\ post_writer (updated input p0) = post_writer p0
  /\ users (store (snd (updatePost id input req_user (fork s fs n))))
     = users s
  /\ types (store (snd (updatePost id input req_user (fork s fs n))))
     = types s
  /\ drafts (store (snd (updatePost id input req_user (fork s fs n))))
     = drafts s
  /\ posts (store (snd (updatePost id input req_user (fork s fs n))))
     = map (fun x => if post_id x =? id then updated input p0 else x)
           (posts s)
  /\ (forall (i : nat) (q : Post),
        nth_error (posts s) i = Some q -> post_id q <> id ->
        nth_error
          (posts (store (snd (updatePost id input req_user (fork s fs n)))))
          i = Some q).
Proof.
  pose proof (lookup_pk Post id s p0 Hp) as Hid. simpl in Hid.
  rewrite (updatePost_head (fork s fs n) id req_user input u p0 Hu Hp).
  replace (same_object u (post_writer p0)) with true
    by (symmetry; apply same_object_true; congruence).
  assert (Hposts :
    posts (store (snd ((assigned (updated input p0) ;;;
                        (try flush catch UserInputError) ;;;
                        ret (updated input p0))
                         (looked_up "Post" id req_user (fork s fs n)))))
    = map (fun x => if post_id x =? id then updated input p0 else x)
          (posts s)).
  { destruct fs as [|[|] fs]; try discriminate Hok; cbn; rewrite Hid;
      reflexivity. }
  cbn [negb]. fold (updated input p0).
  repeat split; try exact Hposts;
    try (destruct fs as [|[|] fs]; try discriminate Hok; reflexivity).
  intros i q Hq Hne. rewrite Hposts, nth_error_map, Hq. simpl.
  apply String.eqb_neq in Hne. rewrite Hne. reflexivity.
Qed.

(** C10. The [type] field of the input plays no part in [updatePost]:
    two calls whose inputs differ in that field only return the same
    result and leave the entity manager, hence the store, in the same
    state. *)
Theorem updatePost_ignores_type
  (id req_user : string) (input1 input2 : PostMutationInput) (em : EM)
  (Htitle : in_title input1 = in_title input2)
  (Hslug : in_slug input1 = in_slug input2)
  (Hbody : in_body input1 = in_body input2) :
  updatePost id input1 req_user em = updatePost id input2 req_user em
  /\ fst (updatePost id input1 req_user em)
     = fst (updatePost id input2 req_user em)
  /\ store (snd (updatePost id input1 req_user em))
     = store (snd (updatePost id input2 req_user em)).
Proof.
  assert (E : updatePost id input1 req_user em
              = updatePost id input2 req_user em).
  { unfold updatePost. rewrite Htitle, Hslug, Hbody. reflexivity. }
  rewrite E. repeat split.
Qed.

Lemma deletePost_true_or_throws (id req_user : string) (em : EM) :
  fst (deletePost id req_user em) = Ok true
  \/ exists e, fst (deletePost id req_user em) = Throw e.
Proof.
  destruct (lookup User req_user (store em)) as [u|] eqn:Hu.
  - destruct (lookup Post id (store em)) as [p|] eqn:Hp.
    + rewrite (deletePost_head em id req_user u p Hu Hp).
      destruct (same_object u (post_writer p)); cbn [negb].
      * generalize (looked_up "Post" id req_user em). intros em2.
        unfold bind, remove_post, schedule, ret, flush. cbn [faults].
        destruct (faults em2) as [|[|] fs]; cbn;
          first [left; reflexivity | right; eexists; reflexivity].
      * right. eexists. reflexivity.
    + right. unfold deletePost.
      erewrite bind_ok by (apply authenticate_found; eassumption).
      erewrite bind_throw
        by (apply (resolve_missing Post); rewrite store_log; eassumption).
      eexists. reflexivity.
  - right. unfold deletePost.
    erewrite bind_throw by (apply authenticate_missing; eassumption).
    eexists. reflexivity.
Qed.

Lemma post_after_delete (s' : Store) (l : list Post) (id : string)
  (qs qt : field) (fs' : list bool) (n' : nat) :
  posts s' = filter (fun x => negb (post_id x =? id)) l ->
  fst (post {| q_id := Given id; q_slug := qs; q_title := qt |}
         (fork s' fs' n')) = Ok None.
Proof.
  intros Hposts. unfold post, bind, findOne, ret. cbn. rewrite Hposts.
  clear Hposts.
  assert (Hnone :
    find (meets {| q_id := Given id; q_slug := qs; q_title := qt |})
         (filter (fun x => negb (post_id x =? id)) l) = None).
  { induction l as [|a l IH]; simpl; [reflexivity|].
    destruct (post_id a =? id) eqn:E; simpl; [exact IH|].
    unfold meets at 1. cbn [q_id criterion].
    rewrite String.eqb_sym, E. simpl. exact IH. }
  rewrite Hnone. reflexivity.
Qed.

(** C8. [deletePost(id)] called by the writer of an existing post, on a
    store that commits the flush, returns [true] and removes the rows of
    that identifier, so that a later [post] query with that identifier
    returns null.  On a store that rejects the flush the driver's
    exception is thrown and the store is as it was.  Whatever its
    arguments, [deletePost] returns [true] or throws: it never returns
    [false]. *)
Theorem deletePost_removes_and_never_false
  (s : Store) (fs : list bool) (n : nat) (id req_user : string)
  (u : User) (p : Post)
  (Hu : lookup User req_user s = Some u)
  (Hp : lookup Post id s = Some p)
  (Hown : post_writer p = u)
  (Hok : commits 1 fs = true) :
  fst (deletePost id req_user (fork s fs n)) = Ok true
  /\ posts (store (snd (deletePost id req_user (fork s fs n))))
     = filter (fun x => negb (post_id x =? id)) (posts s)
  /\ ~ In p (posts (store (snd (deletePost id req_user (fork s fs n)))))
  /\ (forall (qs qt : field) (fs' : list bool) (n' : nat),
        fst (post {| q_id := Given id; q_slug := qs; q_title := qt |}
               (fork (store (snd (deletePost id req_user (fork s fs n))))
                     fs' n'))
        = Ok None)
  /\ (forall fs' : list bool,
        fst (deletePost id req_user (fork s (true :: fs') n))
        = Throw DriverException
        /\ store (snd (deletePost id req_user (fork s (true :: fs') n)))
           = s)
  /\ (forall (id' req_user' : string) (em' : EM),
        fst (deletePost id' req_user' em') <> Ok false).
Proof.
  pose proof (lookup_pk Post id s p Hp) as Hid. simpl in Hid.
  assert (Hsame : same_object u (post_writer p) = true)
    by (apply same_object_true; congruence).
  assert (Hfail : forall fs' : list bool,
    fst (deletePost id req_user (fork s (true :: fs') n))
    = Throw DriverException
    /\ store (snd (deletePost id req_user (fork s (true :: fs') n))) = s).
  { intros fs'.
    rewrite (deletePost_head (fork s (true :: fs') n) id req_user u p
               Hu Hp), Hsame.
    split; reflexivity. }
  rewrite (deletePost_head (fork s fs n) id req_user u p Hu Hp).
  rewrite Hsame.
  assert (Hposts :
    posts (store (snd (((remove_post p ;;; flush) ;;; ret true)
                         (looked_up "Post" id req_user (fork s fs n)))))
    = filter (fun x => negb (post_id x =? id)) (posts s)).
  { destruct fs as [|[|] fs]; try discriminate Hok; cbn; rewrite Hid;
      reflexivity. }
  cbn [negb]. split; [|split; [exact Hposts|split; [|split; [|split]]]].
  - destruct fs as [|[|] fs]; try discriminate Hok; reflexivity.
  - rewrite Hposts, <- Hid. apply (not_in_after_delete Post post_id).
  - intros qs qt fs' n'. apply (post_after_delete _ (posts s)), Hposts.
  - exact Hfail.
  - intros id' req_user' em' Hfalse.
    destruct (deletePost_true_or_throws id' req_user' em') as [Ht|[e He]];
      congruence.
Qed.

(** ** Listing posts *)

Lemma natural_num (n : nat) : natural (num n) = Some n.
Proof using.
  unfold natural, num. cbn [numerator denominator].
  rewrite Z.mod_1_r, Z.div_1_r, Nat2Z.id.
  replace (0 <=? Z.of_nat n)%Z with true
    by (symmetry; apply Z.leb_le, Nat2Z.is_nonneg).
  reflexivity.
Qed.

Lemma paging_limit (limit offset : number) (k o : nat) :
  natural limit = Some (S k) -> natural offset = Some o ->
  paging engine limit offset = Some (Some (S k), o).
Proof using. unfold paging. intros -> ->. reflexivity. Qed.

Lemma paging_no_limit (limit offset : number) (o : nat) :
  natural limit = Some 0 -> natural offset = Some o ->
  paging engine limit offset = Some (None, o).
Proof using. unfold paging. intros -> ->. reflexivity. Qed.

Lemma In_window (lim : option nat) (off : nat) (l : list Post) (p : Post) :
  In p (window lim off l) -> In p l.
Proof using.
  assert (Hf : forall (m : nat) (xs : list Post),
             In p (firstn m xs) -> In p xs).
  { induction m as [|m IH]; intros [|x xs]; simpl; intros H;
      try contradiction.
    destruct H as [E|Hx]; [left; exact E|right; apply IH, Hx]. }
  assert (Hs : forall (m : nat) (xs : list Post),
             In p (skipn m xs) -> In p xs).
  { induction m as [|m IH]; intros [|x xs]; simpl; intros H;
      try assumption.
    right. apply IH, H. }
  destruct lim as [n|]; simpl; intros Hin.
  - apply (Hs off), (Hf n), Hin.
  - apply (Hs off), Hin.
Qed.

Lemma In_page (limit offset : option number) (l l' : list Post) (p : Post) :
  page engine limit offset l = Ok l' -> In p l' -> In p l.
Proof using.
  unfold page.
  destruct (paging engine (default (num 10) limit) (default (num 0) offset))
    as [[lim off]|]; [|discriminate].
  intros H. injection H as <-. apply In_window.
Qed.

Lemma truthy_nonempty (tid : string) : tid <> "" -> truthy (Some tid) = true.
Proof.
  intros Hne. simpl. apply String.eqb_neq in Hne. rewrite Hne. reflexivity.
Qed.

Lemma find_page_page (f : PostFilter) (g : Post -> bool)
  (limit offset : option number) (em : EM) :
  (forall p, selects f p = g p) ->
  find_page engine f (default (num 10) limit) (default (num 0) offset) em
  = (page engine limit offset (filter g (posts (store em))),
     log (Query "Post") em).
Proof using.
  intros Hsame. unfold find_page, page.
  rewrite (filter_ext (selects f) g Hsame).
  destruct (paging engine (default (num 10) limit) (default (num 0) offset))
    as [[lim off]|]; reflexivity.
Qed.

Lemma filter_all (l : list Post) : filter (fun _ => true) l = l.
Proof using.
  induction l as [|a l IH]; simpl; [reflexivity|]. rewrite IH. reflexivity.
Qed.

(** [Posts] with neither identifier supplied, or with empty ones: no
    lookup, no filter. *)
Lemma Posts_unfiltered (input : PostsQueryInput)
  (limit offset : option number) (em : EM) :
  truthy (f_type input) = false ->
  truthy (f_writer input) = false ->
  Posts engine input limit offset em
  = (page engine limit offset (posts (store em)), log (Query "Post") em).
Proof using.
  intros Ht Hw. unfold Posts. rewrite Ht, Hw.
  erewrite bind_ok by reflexivity. erewrite bind_ok by reflexivity.
  rewrite (find_page_page _ (fun _ => true)) by reflexivity.
  rewrite filter_all. reflexivity.
Qed.

Lemma Posts_type_missing (input : PostsQueryInput)
  (limit offset : option number) (em : EM) :
  truthy (f_type input) = true ->
  lookup Type_ (the (f_type input)) (store em) = None ->
  Posts engine input limit offset em
  = (Throw (UserInputError (NotFoundError "Type")),
     log (Lookup "Type" (the (f_type input))) em).
Proof using.
  intros Ht Hnone. unfold Posts. rewrite Ht.
  eapply bind_throw. eapply bind_throw.
  exact (resolve_missing Type_ _ em Hnone).
Qed.

Lemma Posts_writer_missing (input : PostsQueryInput)
  (limit offset : option number) (em : EM) :
  truthy (f_type input) = false
  \/ lookup Type_ (the (f_type input)) (store em) <> None ->
  truthy (f_writer input) = true ->
  lookup User (the (f_writer input)) (store em) = None ->
  fst (Posts engine input limit offset em)
  = Throw (UserInputError (NotFoundError "User"))
  /\ store (snd (Posts engine input limit offset em)) = store em.
Proof using.
  intros Ht Hw Hnone. unfold Posts. rewrite Hw.
  destruct (truthy (f_type input)) eqn:E.
  - destruct Ht as [Ht|Ht]; [discriminate|].
    destruct (lookup Type_ (the (f_type input)) (store em)) as [t|] eqn:Hl;
      [|contradiction].
    erewrite bind_ok.
    2:{ erewrite bind_ok by (apply (resolve_found Type_); eassumption).
        reflexivity. }
    erewrite bind_throw.
    2:{ eapply bind_throw. apply (resolve_missing User).
        rewrite store_log. exact Hnone. }
    split; reflexivity.
  - erewrite bind_ok by reflexivity.
    erewrite bind_throw.
    2:{ eapply bind_throw. apply (resolve_missing User). exact Hnone. }
    split; reflexivity.
Qed.

Lemma Posts_of_type (input : PostsQueryInput)
  (limit offset : option number) (em : EM) (t : Type_) :
  truthy (f_type input) = true ->
  lookup Type_ (the (f_type input)) (store em) = Some t ->
  truthy (f_writer input) = false ->
  Posts engine input limit offset em
  = (page engine limit offset
       (filter (of_type (the (f_type input))) (posts (store em))),
     log (Query "Post") (log (Lookup "Type" (the (f_type input))) em)).
Proof using.
  intros Ht Hl Hw. unfold Posts. rewrite Ht, Hw.
  erewrite bind_ok.
  2:{ erewrite bind_ok by (apply (resolve_found Type_); eassumption).
      reflexivity. }
  erewrite bind_ok by reflexivity.
  pose proof (lookup_pk Type_ _ _ _ Hl) as Hid. simpl in Hid.
  rewrite (find_page_page _ (of_type (the (f_type input)))).
  - rewrite store_log. reflexivity.
  - intros p. unfold selects, of_type. cbn. rewrite Hid.
    apply andb_true_r.
Qed.

(** C5, amended. A lookup of a referenced entity that fails is turned
    into a UserInputError where it is made, with the store untouched:
    in [Posts] for a non-empty type identifier and for a non-empty
    writer identifier, in [createPost] for the draft, in [updatePost]
    and [deletePost] for the post (the acting user having resolved).
    An identifier of [Posts] that is absent or empty is not looked up
    at all: the query then runs without that filter. *)
Theorem failed_lookup_is_input_error (em : EM) :
  (forall (input : PostsQueryInput) (limit offset : option number),
      truthy (f_type input) = true ->
      lookup Type_ (the (f_type input)) (store em) = None ->
      Posts engine input limit offset em
      = (Throw (UserInputError (NotFoundError "Type")),
         log (Lookup "Type" (the (f_type input))) em))
  /\ (forall (input : PostsQueryInput) (limit offset : option number),
        truthy (f_type input) = false
        \/ lookup Type_ (the (f_type input)) (store em) <> None ->
        truthy (f_writer input) = true ->
        lookup User (the (f_writer input)) (store em) = None ->
        fst (Posts engine input limit offset em)
        = Throw (UserInputError (NotFoundError "User"))
        /\ store (snd (Posts engine input limit offset em)) = store em)
  /\ (forall (input : PostsQueryInput) (limit offset : option number),
        truthy (f_type input) = false ->
        truthy (f_writer input) = false ->
        Posts engine input limit offset em
        = (page engine limit offset (posts (store em)),
           log (Query "Post") em))
  /\ (forall (req_user draft_id slug : string) (u : User),
        lookup User req_user (store em) = Some u ->
        lookup Draft draft_id (store em) = None ->
        createPost uuid draft_id slug req_user em
        = (Throw (UserInputError (NotFoundError "Draft")),
           looked_up "Draft" draft_id req_user em))
  /\ (forall (req_user id : string) (input : PostMutationInput) (u : User),
        lookup User req_user (store em) = Some u ->
        lookup Post id (store em) = None ->
        updatePost id input req_user em
        = (Throw (UserInputError (NotFoundError "Post")),
           looked_up "Post" id req_user em)
        /\ deletePost id req_user em
           = (Throw (UserInputError (NotFoundError "Post")),
              looked_up "Post" id req_user em)).
Proof.
  split; [intros; apply Posts_type_missing; assumption|].
  split; [intros; apply Posts_writer_missing; assumption|].
  split; [intros; apply Posts_unfiltered; assumption|].
  split.
  - intros req_user draft_id slug u Hu Hd. unfold createPost.
    erewrite bind_ok by (apply authenticate_found; eassumption).
    eapply bind_throw.
    exact (resolve_missing Draft draft_id (log (Lookup "User" req_user) em)
             Hd).
  - intros req_user id input u Hu Hp. split.
    + unfold updatePost.
      erewrite bind_ok by (apply authenticate_found; eassumption).
      eapply bind_throw.
      exact (resolve_missing Post id (log (Lookup "User" req_user) em) Hp).
    + unfold deletePost.
      erewrite bind_ok by (apply authenticate_found; eassumption).
      eapply bind_throw.
      exact (resolve_missing Post id (log (Lookup "User" req_user) em) Hp).
Qed.

(** C6, amended. [Posts] with a non-empty type identifier that resolves
    (and no writer identifier), a limit that is a positive whole number
    and an offset that is a whole number from 0 on, returns the page of
    the posts of that type: of the store's posts whose type has that
    identifier, in store order, it skips [offset] and keeps at most
    [limit], where [limit] is 10 and [offset] is 0 when they are not
    supplied.  So the i-th post of the page is the (offset + i)-th post
    of that type, every post of the page has that type, and the store
    is untouched.  A limit of 0 is no limit: the posts of that type are
    then returned from [offset] on.  (An empty identifier is not a
    filter: [Posts] then runs unfiltered.) *)
Theorem Posts_pages_posts_of_type
  (em : EM) (input : PostsQueryInput) (tid : string)
  (limit offset : option number) (t : Type_) (o : nat)
  (Htid : f_type input = Some tid)
  (Hne : tid <> "")
  (Hw : truthy (f_writer input) = false)
  (Ht : lookup Type_ tid (store em) = Some t)
  (Hoffset : natural (default (num 0) offset) = Some o) :
  (forall k : nat,
      natural (default (num 10) limit) = Some (S k) ->
      fst (Posts engine input limit offset em)
      = Ok (firstn (S k) (skipn o (filter (of_type tid) (posts (store em)))))
      /\ (forall p : Post,
            In p (firstn (S k)
                    (skipn o (filter (of_type tid) (posts (store em))))) ->
            In p (posts (store em)) /\ type_id (post_type p) = tid)
      /\ (forall i : nat,
            i < S k ->
            nth_error
              (firstn (S k)
                 (skipn o (filter (of_type tid) (posts (store em))))) i
            = nth_error (filter (of_type tid) (posts (store em))) (o + i))
      /\ length (firstn (S k)
                   (skipn o (filter (of_type tid) (posts (store em)))))
         = Nat.min (S k)
             (length (filter (of_type tid) (posts (store em))) - o))
  /\ (natural (default (num 10) limit) = Some 0 ->
      fst (Posts engine input limit offset em)
      = Ok (skipn o (filter (of_type tid) (posts (store em)))))
  /\ natural (default (num 10) None) = Some 10
  /\ natural (default (num 0) None) = Some 0
  /\ (forall x : number,
        default (num 10) (Some x) = x /\ default (num 0) (Some x) = x)
  /\ store (snd (Posts engine input limit offset em)) = store em.
Proof.
  assert (Htr : truthy (f_type input) = true)
    by (rewrite Htid; apply truthy_nonempty, Hne).
  assert (Hthe : the (f_type input) = tid) by (rewrite Htid; reflexivity).
  rewrite <- Hthe in Ht.
  rewrite (Posts_of_type input limit offset em t Htr Ht Hw), Hthe.
  cbn [fst snd]. rewrite !store_log. unfold page.
  split; [|split; [|repeat split]].
  - intros k Hlimit. rewrite (paging_limit _ _ k o Hlimit Hoffset).
    cbn [window]. split; [reflexivity|]. split; [|split].
    + intros p Hp. apply (In_window (Some (S k)) o), filter_In in Hp.
      destruct Hp as [Hin Hty]. split; [exact Hin|].
      apply String.eqb_eq, Hty.
    + intros i Hi. rewrite nth_error_firstn, nth_error_skipn.
      apply Nat.ltb_lt in Hi. rewrite Hi. reflexivity.
    + rewrite length_firstn, length_skipn. reflexivity.
  - intros Hlimit. rewrite (paging_no_limit _ _ o Hlimit Hoffset).
    reflexivity.
Qed.

(** The example of the specification: with 25 posts of the type, a
    limit of 10 and an offset of 10, the page is the 11th to the 20th of
    them. *)
Lemma Posts_second_page_of_25
  (em : EM) (tid : string) (t : Type_)
  (Hne : tid <> "")
  (Ht : lookup Type_ tid (store em) = Some t)
  (H25 : length (filter (of_type tid) (posts (store em))) = 25) :
  exists l : list Post,
    fst (Posts engine {| f_type := Some tid; f_writer := None |}
           (Some (num 10)) (Some (num 10)) em) = Ok l
    /\ length l = 10
    /\ forall i : nat,
         i < 10 ->
         nth_error l i
         = nth_error (filter (of_type tid) (posts (store em))) (10 + i).
Proof.
  pose proof (truthy_nonempty tid Hne) as Htr.
  exists (firstn 10 (skipn 10 (filter (of_type tid) (posts (store em))))).
  split.
  - rewrite (Posts_of_type {| f_type := Some tid; f_writer := None |}
               (Some (num 10)) (Some (num 10)) em t Htr Ht eq_refl).
    cbn [fst the f_type]. unfold page. cbn [default].
    rewrite (paging_limit _ _ 9 10 (natural_num 10) (natural_num 10)).
    reflexivity.
  - split.
    + rewrite length_firstn, length_skipn, H25. reflexivity.
    + intros i Hi. rewrite nth_error_firstn, nth_error_skipn.
      apply Nat.ltb_lt in Hi. rewrite Hi. reflexivity.
Qed.

End Claims.

(** ** The statements on the small blog *)

Lemma authentication_first_witness :
  lookup User "mallory" (store (fork blog [] 0)) = None
  /\ createPost gen "d1" "lists" "mallory" (fork blog [] 0)
     = (Throw (AuthenticationError (NotFoundError "User")),
        log (Lookup "User" "mallory") (fork blog [] 0)).
Proof.
  split; [reflexivity|].
  exact (proj1 (authentication_first gen (fork blog [] 0) "mallory" "d1"
                  "lists" "p1" edit eq_refl)).
Defined.


Lemma not_writer_forbidden_store_unchanged_witness :
  lookup User "bob" (store (fork blog [] 0)) = Some bob
  /\ lookup Draft "d1" (store (fork blog [] 0)) = Some draft1
  /\ lookup Post "p1" (store (fork blog [] 0)) = Some post1
  /\ draft_writer draft1 <> bob
  /\ post_writer post1 <> bob
  /\ forbidden (fst (createPost gen "d1" "lists" "bob" (fork blog [] 0)))
  /\ store (snd (createPost gen "d1" "lists" "bob" (fork blog [] 0))) = blog
  /\ store (snd (updatePost "p1" edit "bob" (fork blog [] 0))) = blog
  /\ store (snd (deletePost "p1" "bob" (fork blog [] 0))) = blog.
Proof.
  do 3 (split; [reflexivity|]).
  assert (Hnd : draft_writer draft1 <> bob) by discriminate.
  assert (Hnp : post_writer post1 <> bob) by discriminate.
  split; [exact Hnd|]. split; [exact Hnp|].
  destruct (not_writer_forbidden_store_unchanged gen (fork blog [] 0) "bob"
              bob eq_refl) as (Hc & Hp).
  destruct (Hc "d1" "lists" draft1 eq_refl Hnd) as (Hf & _ & Hs & _).
  destruct (Hp "p1" edit post1 eq_refl Hnp)
    as ((_ & _ & Hsu & _) & (_ & _ & Hsd & _)).
  repeat split; assumption.
Defined.

Lemma createPost_steps_dependent_witness :
  lookup User "alice" blog = Some alice
  /\ lookup Draft "d1" blog = Some draft1
  /\ draft_writer draft1 = alice
  /\ fst (createPost gen "d1" "lists" "alice" (fork blog [true] 0))
     = Throw (UserInputError DriverException)
  /\ store (snd (createPost gen "d1" "lists" "alice" (fork blog [true] 0)))
     = blog
  /\ fst (createPost gen "d1" "lists" "alice" (fork blog [false; true] 0))
     = Throw (UserInputError DriverException).
Proof.
  do 3 (split; [reflexivity|]).
  destruct (createPost_steps_dependent gen blog [] 0 "d1" "lists" "alice"
              alice draft1 eq_refl eq_refl eq_refl)
    as ((H1 & H2 & _) & (H3 & _)).
  repeat split; assumption.
Defined.

Lemma createPost_promotes_draft_witness :
  lookup User "alice" blog = Some alice
  /\ lookup Draft (draft_id draft1) blog = Some draft1
  /\ draft_writer draft1 = alice
  /\ commits 2 [] = true
  /\ exists p : Post,
       fst (createPost gen "d1" "fresh-slug" "alice" (fork blog [] 0)) = Ok p
       /\ post_slug p = "fresh-slug"
       /\ post_title p = "On lists"
       /\ lookup Draft "d1"
            (store (snd (createPost gen "d1" "fresh-slug" "alice"
                           (fork blog [] 0)))) = None.
Proof.
  do 4 (split; [reflexivity|]).
  destruct (createPost_promotes_draft gen blog [] 0 "fresh-slug" "alice"
              alice draft1 eq_refl eq_refl eq_refl eq_refl)
    as (p & Hr & _ & Ht & _ & _ & _ & Hs & Hgone & _).
  exists p. repeat split; assumption.
Defined.

Lemma updatePost_changes_three_fields_witness :
  lookup User "alice" blog = Some alice
  /\ lookup Post "p1" blog = Some post1
  /\ post_writer post1 = alice
  /\ commits 1 [] = true
  /\ fst (updatePost "p1" edit "alice" (fork blog [] 0))
     = Ok (updated edit post1)
  /\ drafts (store (snd (updatePost "p1" edit "alice" (fork blog [] 0))))
     = drafts blog.
Proof.
  do 4 (split; [reflexivity|]).
  destruct (updatePost_changes_three_fields blog [] 0 "p1" "alice" edit
              alice post1 eq_refl eq_refl eq_refl eq_refl)
    as (Hr & _ & _ & _ & _ & _ & _ & _ & _ & Hd & _).
  split; assumption.
Defined.

Lemma updatePost_ignores_type_witness :
  in_type edit <> in_type edit_other_type
  /\ in_title edit = in_title edit_other_type
  /\ in_slug edit = in_slug edit_other_type
  /\ in_body edit = in_body edit_other_type
  /\ updatePost "p1" edit "alice" (fork blog [] 0)
     = updatePost "p1" edit_other_type "alice" (fork blog [] 0).
Proof.
  split; [discriminate|]. do 3 (split; [reflexivity|]).
  exact (proj1 (updatePost_ignores_type "p1" "alice" edit edit_other_type
                  (fork blog [] 0) eq_refl eq_refl eq_refl)).
Defined.

Lemma deletePost_removes_and_never_false_witness :
  lookup User "alice" blog = Some alice
  /\ lookup Post "p1" blog = Some post1
  /\ post_writer post1 = alice
  /\ commits 1 [] = true
  /\ fst (deletePost "p1" "alice" (fork blog [] 0)) = Ok true
  /\ fst (post {| q_id := Given "p1"; q_slug := Absent; q_title := Absent |}
            (fork (store (snd (deletePost "p1" "alice" (fork blog [] 0))))
                  [] 0))
     = Ok None.
Proof.
  do 4 (split; [reflexivity|]).
  destruct (deletePost_removes_and_never_false blog [] 0 "p1" "alice"
              alice post1 eq_refl eq_refl eq_refl eq_refl)
    as (Hr & _ & _ & Hq & _ & _).
  split; [exact Hr|apply Hq].
Defined.

Lemma failed_lookup_is_input_error_witness :
  truthy (Some "sports") = true
  /\ lookup Type_ "sports" blog = None
  /\ truthy (Some "carol") = true
  /\ lookup User "carol" blog = None
  /\ truthy (Some "") = false
  /\ lookup User "alice" blog = Some alice
  /\ lookup Draft "d9" blog = None
  /\ lookup Post "p9" blog = None
  /\ fst (Posts strict {| f_type := Some "sports"; f_writer := None |}
            None None (fork blog [] 0))
     = Throw (UserInputError (NotFoundError "Type"))
  /\ fst (Posts strict {| f_type := None; f_writer := Some "carol" |}
            None None (fork blog [] 0))
     = Throw (UserInputError (NotFoundError "User"))
  /\ fst (Posts strict {| f_type := Some ""; f_writer := None |} None None
            (fork blog [] 0))
     = Ok [post1]
  /\ fst (createPost gen "d9" "lists" "alice" (fork blog [] 0))
     = Throw (UserInputError (NotFoundError "Draft"))
  /\ fst (updatePost "p9" edit "alice" (fork blog [] 0))
     = Throw (UserInputError (NotFoundError "Post"))
  /\ fst (deletePost "p9" "alice" (fork blog [] 0))
     = Throw (UserInputError (NotFoundError "Post")).
Proof.
  do 8 (split; [reflexivity|]).
  destruct (failed_lookup_is_input_error gen strict (fork blog [] 0))
    as (Ht & Hw & Hn & Hc & Hm).
  pose proof (Ht {| f_type := Some "sports"; f_writer := None |} None None
                eq_refl eq_refl) as Et.
  destruct (Hw {| f_type := None; f_writer := Some "carol" |} None None
              (or_introl eq_refl) eq_refl eq_refl) as (Ew & _).
  pose proof (Hn {| f_type := Some ""; f_writer := None |} None None
                eq_refl eq_refl) as En.
  pose proof (Hc "alice" "d9" "lists" alice eq_refl eq_refl) as Ec.
  destruct (Hm "alice" "p9" edit alice eq_refl eq_refl) as (Eu & Ed).
  split; [exact (f_equal fst Et)|].
  split; [exact Ew|].
  split; [exact (f_equal fst En)|].
  split; [exact (f_equal fst Ec)|].
  split; [exact (f_equal fst Eu)|exact (f_equal fst Ed)].
Defined.

(** C5 as stated fails: the empty string resolves to no type of the
    blog, and [Posts] asked for that type returns the unfiltered page
    instead of throwing. *)
Lemma unresolved_type_refuted :
  ~ unresolved_type_is_input_error strict "" None None (fork blog [] 0).
Proof.
  intros Hclaim. destruct (Hclaim eq_refl) as [cause Hc].
  discriminate Hc.
Qed.

Lemma Posts_pages_posts_of_type_witness :
  f_type {| f_type := Some "news"; f_writer := None |} = Some "news"
  /\ "news" <> ""
  /\ truthy (f_writer {| f_type := Some "news"; f_writer := None |}) = false
  /\ lookup Type_ "news" (store (fork archive [] 0)) = Some news
  /\ natural (default (num 0) (Some (num 10))) = Some 10
  /\ natural (default (num 10) (Some (num 10))) = Some 10
  /\ length (filter (of_type "news") (posts archive)) = 25
  /\ length (posts archive) = 50
  /\ fst (Posts strict {| f_type := Some "news"; f_writer := None |}
            (Some (num 10)) (Some (num 10)) (fork archive [] 0))
     = Ok (map (article news 65) (seq 10 10)).
Proof.
  assert (Hne : "news" <> "") by discriminate.
  split; [reflexivity|]. split; [exact Hne|].
  do 6 (split; [reflexivity|]).
  destruct (Posts_pages_posts_of_type strict (fork archive [] 0)
              {| f_type := Some "news"; f_writer := None |} "news"
              (Some (num 10)) (Some (num 10)) news 10
              eq_refl Hne eq_refl eq_refl eq_refl) as (Hpage & _).
  destruct (Hpage 9 eq_refl) as (Hr & _).
  exact Hr.
Defined.

(** C6 as stated fails: [Posts] with the filter [{type: ""}] returns a
    post whose type is not the empty one. *)
Lemma only_posts_of_type_refuted :
  ~ only_posts_of_type strict "" None None (fork blog [] 0).
Proof.
  intros Hclaim.
  specialize (Hclaim [post1] eq_refl post1 (or_introl eq_refl)).
  discriminate Hclaim.
Qed.

(** ** Every outcome of a mutation

    The rest of the development looks at the resolver beyond the ten
    statements above: what each method can return on a request, what it
    leaves untouched, and how the methods compose. *)

Section Outcomes.

Variable uuid : nat -> string.
Variable engine : Engine.

Lemma createPost_unauthenticated (em : EM) (draft_id slug req_user : string) :
  lookup User req_user (store em) = None ->
  createPost uuid draft_id slug req_user em
  = (Throw (AuthenticationError (NotFoundError "User")),
     log (Lookup "User" req_user) em).
Proof.
  intros Hu. unfold createPost. eapply bind_throw.
  apply authenticate_missing, Hu.
Qed.

Lemma deletePost_unauthenticated (em : EM) (id req_user : string) :
  lookup User req_user (store em) = None ->
  deletePost id req_user em
  = (Throw (AuthenticationError (NotFoundError "User")),
     log (Lookup "User" req_user) em).
Proof.
  intros Hu. unfold deletePost. eapply bind_throw.
  apply authenticate_missing, Hu.
Qed.

Lemma updatePost_unauthenticated (em : EM) (id req_user : string)
  (input : PostMutationInput) :
  lookup User req_user (store em) = None ->
  updatePost id input req_user em
  = (Throw (AuthenticationError (NotFoundError "User")),
     log (Lookup "User" req_user) em).
Proof.
  intros Hu. unfold updatePost. eapply bind_throw.
  apply authenticate_missing, Hu.
Qed.

Lemma createPost_draft_missing (em : EM) (draft_id slug req_user : string)
  (u : User) :
  lookup User req_user (store em) = Some u ->
  lookup Draft draft_id (store em) = None ->
  createPost uuid draft_id slug req_user em
  = (Throw (UserInputError (NotFoundError "Draft")),
     looked_up "Draft" draft_id req_user em).
Proof.
  intros Hu Hd. unfold createPost.
  erewrite bind_ok by (apply authenticate_found; eassumption).
  eapply bind_throw.
  exact (resolve_missing Draft draft_id (log (Lookup "User" req_user) em)
           Hd).
Qed.

Lemma deletePost_post_missing (em : EM) (id req_user : string) (u : User) :
  lookup User req_user (store em) = Some u ->
  lookup Post id (store em) = None ->
  deletePost id req_user em
  = (Throw (UserInputError (NotFoundError "Post")),
     looked_up "Post" id req_user em).
Proof.
  intros Hu Hp. unfold deletePost.
  erewrite bind_ok by (apply authenticate_found; eassumption).
  eapply bind_throw.
  exact (resolve_missing Post id (log (Lookup "User" req_user) em) Hp).
Qed.

Lemma updatePost_post_missing (em : EM) (id req_user : string)
  (input : PostMutationInput) (u : User) :
  lookup User req_user (store em) = Some u ->
  lookup Post id (store em) = None ->
  updatePost id input req_user em
  = (Throw (UserInputError (NotFoundError "Post")),
     looked_up "Post" id req_user em).
Proof.
  intros Hu Hp. unfold updatePost.
  erewrite bind_ok by (apply authenticate_found; eassumption).
  eapply bind_throw.
  exact (resolve_missing Post id (log (Lookup "User" req_user) em) Hp).
Qed.

(** The six ways a [createPost] request ends. *)
Lemma createPost_cases (s : Store) (fs : list bool) (n : nat)
  (draft_id slug req_user : string) :
  (lookup User req_user s = None
   /\ fst (createPost uuid draft_id slug req_user (fork s fs n))
      = Throw (AuthenticationError (NotFoundError "User"))
   /\ store (snd (createPost uuid draft_id slug req_user (fork s fs n))) = s)
  \/ (lookup Draft draft_id s = None
      /\ fst (createPost uuid draft_id slug req_user (fork s fs n))
         = Throw (UserInputError (NotFoundError "Draft"))
      /\ store (snd (createPost uuid draft_id slug req_user (fork s fs n)))
         = s)
  \/ (exists (u : User) (d : Draft),
        lookup User req_user s = Some u
        /\ lookup Draft draft_id s = Some d
        /\ draft_writer d <> u
        /\ fst (createPost uuid draft_id slug req_user (fork s fs n))
           = Throw (ForbiddenError "User is not the writer of this draft")
        /\ store (snd (createPost uuid draft_id slug req_user
                         (fork s fs n))) = s)
  \/ (exists d : Draft,
        lookup User req_user s = Some (draft_writer d)
        /\ lookup Draft draft_id s = Some d
        /\ commits 1 fs = false
        /\ fst (createPost uuid draft_id slug req_user (fork s fs n))
           = Throw (UserInputError DriverException)
        /\ store (snd (createPost uuid draft_id slug req_user
                         (fork s fs n))) = s)
  \/ (exists d : Draft,
        lookup User req_user s = Some (draft_writer d)
        /\ lookup Draft draft_id s = Some d
        /\ commits 1 fs = true /\ commits 2 fs = false
        /\ fst (createPost uuid draft_id slug req_user (fork s fs n))
           = Throw (UserInputError DriverException)
        /\ store (snd (createPost uuid draft_id slug req_user
                         (fork s fs n)))
           = apply_change s (Persist (promoted uuid n slug d)))
  \/ (exists d : Draft,
        lookup User req_user s = Some (draft_writer d)
        /\ lookup Draft draft_id s = Some d
        /\ commits 2 fs = true
        /\ fst (createPost uuid draft_id slug req_user (fork s fs n))
           = Ok (promoted uuid n slug d)
        /\ store (snd (createPost uuid draft_id slug req_user
                         (fork s fs n)))
           = apply_change (apply_change s (Persist (promoted uuid n slug d)))
               (RemoveDraft d)).
Proof.
  destruct (lookup User req_user s) as [u|] eqn:Hu.
  - destruct (lookup Draft draft_id s) as [d|] eqn:Hd.
    + rewrite (createPost_head uuid (fork s fs n) draft_id slug req_user
                 u d Hu Hd).
      destruct (same_object (draft_writer d) u) eqn:E; cbn [negb].
      * apply same_object_true in E. subst u.
        do 3 right.
        destruct fs as [|[|] [|[|] fs]]; cbn;
          first
            [ left; exists d; repeat split; reflexivity
            | right; left; exists d; repeat split; reflexivity
            | right; right; exists d; repeat split; reflexivity ].
      * apply same_object_false in E. right. right. left.
        exists u, d. repeat split; assumption.
    + right. left.
      rewrite (createPost_draft_missing (fork s fs n) draft_id slug
                 req_user u Hu Hd).
      repeat split.
  - left.
    rewrite (createPost_unauthenticated (fork s fs n) draft_id slug
               req_user Hu).
    repeat split.
Qed.

(** The five ways a [deletePost] request ends. *)
Lemma deletePost_cases (s : Store) (fs : list bool) (n : nat)
  (id req_user : string) :
  (lookup User req_user s = None
   /\ fst (deletePost id req_user (fork s fs n))
      = Throw (AuthenticationError (NotFoundError "User"))
   /\ store (snd (deletePost id req_user (fork s fs n))) = s)
  \/ (lookup Post id s = None
      /\ fst (deletePost id req_user (fork s fs n))
         = Throw (UserInputError (NotFoundError "Post"))
      /\ store (snd (deletePost id req_user (fork s fs n))) = s)
  \/ (exists (u : User) (p : Post),
        lookup User req_user s = Some u
        /\ lookup Post id s = Some p
        /\ post_writer p <> u
        /\ fst (deletePost id req_user (fork s fs n))
           = Throw (ForbiddenError "User is not the writer of this post")
        /\ store (snd (deletePost id req_user (fork s fs n))) = s)
  \/ (exists p : Post,
        lookup User req_user s = Some (post_writer p)
        /\ lookup Post id s = Some p
        /\ commits 1 fs = false
        /\ fst (deletePost id req_user (fork s fs n))
           = Throw DriverException
        /\ store (snd (deletePost id req_user (fork s fs n))) = s)
  \/ (exists p : Post,
        lookup User req_user s = Some (post_writer p)
        /\ lookup Post id s = Some p
        /\ commits 1 fs = true
        /\ fst (deletePost id req_user (fork s fs n)) = Ok true
        /\ store (snd (deletePost id req_user (fork s fs n)))
           = apply_change s (RemovePost p)).
Proof.
  destruct (lookup User req_user s) as [u|] eqn:Hu.
  - destruct (lookup Post id s) as [p|] eqn:Hp.
    + rewrite (deletePost_head (fork s fs n) id req_user u p Hu Hp).
      destruct (same_object u (post_writer p)) eqn:E; cbn [negb].
      * apply same_object_true in E. subst u.
        do 3 right.
        destruct fs as [|[|] fs]; cbn;
          first
            [ left; exists p; repeat split; reflexivity
            | right; exists p; repeat split; reflexivity ].
      * apply same_object_false in E. right. right. left.
        exists u, p. repeat split; try assumption. congruence.
    + right. left.
      rewrite (deletePost_post_missing (fork s fs n) id req_user u Hu Hp).
      repeat split.
  - left.
    rewrite (deletePost_unauthenticated (fork s fs n) id req_user Hu).
    repeat split.
Qed.

(** The five ways an [updatePost] request ends. *)
Lemma updatePost_cases (s : Store) (fs : list bool) (n : nat)
  (id req_user : string) (input : PostMutationInput) :
  (lookup User req_user s = None
   /\ fst (updatePost id input req_user (fork s fs n))
      = Throw (AuthenticationError (NotFoundError "User"))
   /\ store (snd (updatePost id input req_user (fork s fs n))) = s)
  \/ (lookup Post id s = None
      /\ fst (updatePost id input req_user (fork s fs n))
         = Throw (UserInputError (NotFoundError "Post"))
      /\ store (snd (updatePost id input req_user (fork s fs n))) = s)
  \/ (exists (u : User) (p : Post),
        lookup User req_user s = Some u
        /\ lookup Post id s = Some p
        /\ post_writer p <> u
        /\ fst (updatePost id input req_user (fork s fs n))
           = Throw (ForbiddenError "User is not the writer of the post")
        /\ store (snd (updatePost id input req_user (fork s fs n))) = s)
  \/ (exists p : Post,
        lookup User req_user s = Some (post_writer p)
        /\ lookup Post id s = Some p
        /\ commits 1 fs = false
        /\ fst (updatePost id input req_user (fork s fs n))
           = Throw (UserInputError DriverException)
        /\ store (snd (updatePost id input req_user (fork s fs n))) = s)
  \/ (exists p : Post,
        lookup User req_user s = Some (post_writer p)
        /\ lookup Post id s = Some p
        /\ commits 1 fs = true
        /\ fst (updatePost id input req_user (fork s fs n))
           = Ok (updated input p)
        /\ store (snd (updatePost id input req_user (fork s fs n)))
           = apply_change s (Dirty (updated input p))).
Proof.
  destruct (lookup User req_user s) as [u|] eqn:Hu.
  - destruct (lookup Post id s) as [p|] eqn:Hp.
    + rewrite (updatePost_head (fork s fs n) id req_user input u p Hu Hp).
      destruct (same_object u (post_writer p)) eqn:E; cbn [negb].
      * apply same_object_true in E. subst u.
        do 3 right.
        destruct fs as [|[|] fs]; cbn;
          first
            [ left; exists p; repeat split; reflexivity
            | right; exists p; repeat split; reflexivity ].
      * apply same_object_false in E. right. right. left.
        exists u, p. repeat split; try assumption. congruence.
    + right. left.
      rewrite (updatePost_post_missing (fork s fs n) id req_user input u
                 Hu Hp).
      repeat split.
  - left.
    rewrite (updatePost_unauthenticated (fork s fs n) id req_user input Hu).
    repeat split.
Qed.

(** ** The two queries *)


(** The three ways a [Posts] query ends. *)
Lemma Posts_cases (input : PostsQueryInput) (limit offset : option number)
  (em : EM) :
  (truthy (f_type input) = true
   /\ lookup Type_ (the (f_type input)) (store em) = None
   /\ fst (Posts engine input limit offset em)
      = Throw (UserInputError (NotFoundError "Type")))
  \/ ((truthy (f_type input) = true ->
       lookup Type_ (the (f_type input)) (store em) <> None)
      /\ truthy (f_writer input) = true
      /\ lookup User (the (f_writer input)) (store em) = None
      /\ fst (Posts engine input limit offset em)
         = Throw (UserInputError (NotFoundError "User")))
  \/ ((truthy (f_type input) = true ->
       lookup Type_ (the (f_type input)) (store em) <> None)
      /\ (truthy (f_writer input) = true ->
          lookup User (the (f_writer input)) (store em) <> None)
      /\ fst (Posts engine input limit offset em)
         = page engine limit offset
             (filter (wanted input) (posts (store em)))).
Proof using.
  destruct (truthy (f_type input)) eqn:Et.
  - destruct (lookup Type_ (the (f_type input)) (store em)) as [t|] eqn:Ht.
    + pose proof (lookup_pk Type_ _ _ _ Ht) as Hid. simpl in Hid.
      destruct (truthy (f_writer input)) eqn:Ew.
      * destruct (lookup User (the (f_writer input)) (store em))
          as [w|] eqn:Hw.
        -- pose proof (lookup_pk User _ _ _ Hw) as Hwid. simpl in Hwid.
           right. right. split; [discriminate|]. split; [discriminate|].
           unfold Posts. rewrite Et, Ew.
           erewrite bind_ok.
           2:{ erewrite bind_ok by (apply (resolve_found Type_); eassumption).
               reflexivity. }
           erewrite bind_ok.
           2:{ erewrite bind_ok
                 by (apply (resolve_found User); rewrite store_log;
                     eassumption).
               reflexivity. }
           rewrite (find_page_page engine _ (wanted input)).
           ++ rewrite !store_log. reflexivity.
           ++ intros p. unfold selects, wanted. cbn.
              rewrite Et, Ew, Hid, Hwid. reflexivity.
        -- right. left. split; [discriminate|]. split; [reflexivity|].
           split; [reflexivity|].
           apply (Posts_writer_missing engine input limit offset em);
             [right; congruence|exact Ew|exact Hw].
      * right. right. split; [discriminate|]. split; [discriminate|].
        unfold Posts. rewrite Et, Ew.
        erewrite bind_ok.
        2:{ erewrite bind_ok by (apply (resolve_found Type_); eassumption).
            reflexivity. }
        erewrite bind_ok by reflexivity.
        rewrite (find_page_page engine _ (wanted input)).
        -- rewrite !store_log. reflexivity.
        -- intros p. unfold selects, wanted. cbn.
           rewrite Et, Ew, Hid. cbn. rewrite ?andb_true_r. reflexivity.
    + left. split; [reflexivity|]. split; [reflexivity|].
      rewrite (Posts_type_missing engine input limit offset em Et Ht).
      reflexivity.
  - destruct (truthy (f_writer input)) eqn:Ew.
    + destruct (lookup User (the (f_writer input)) (store em))
        as [w|] eqn:Hw.
      * pose proof (lookup_pk User _ _ _ Hw) as Hwid. simpl in Hwid.
        right. right. split; [discriminate|]. split; [discriminate|].
        unfold Posts. rewrite Et, Ew.
        erewrite bind_ok by reflexivity.
        erewrite bind_ok.
        2:{ erewrite bind_ok by (apply (resolve_found User); eassumption).
            reflexivity. }
        rewrite (find_page_page engine _ (wanted input)).
        -- rewrite !store_log. reflexivity.
        -- intros p. unfold selects, wanted. cbn.
           rewrite Et, Ew, Hwid. reflexivity.
      * right. left. split; [discriminate|]. split; [reflexivity|].
        split; [reflexivity|].
        apply (Posts_writer_missing engine input limit offset em);
          [left; exact Et|exact Ew|exact Hw].
    + right. right. split; [discriminate|]. split; [discriminate|].
      rewrite (Posts_unfiltered engine input limit offset em Et Ew).
      cbn [fst]. f_equal. symmetry.
      rewrite (filter_ext (wanted input) (fun _ => true)).
      * apply filter_all.
      * intros p. unfold wanted. rewrite Et, Ew. reflexivity.
Qed.

(** X1. The two queries only read: whatever their arguments and
    whatever they return, [post] and [Posts] leave the store, the unit
    of work, the pending faults and the identifier generator as they
    were, and the calls they add to the trace are lookups and queries,
    never a scheduled change or a flush. *)
Theorem queries_only_read
  (em : EM) (q : PostQueryInput) (input : PostsQueryInput)
  (limit offset : option number) :
  (store (snd (post q em)) = store em
   /\ pending (snd (post q em)) = pending em
   /\ faults (snd (post q em)) = faults em
   /\ fresh (snd (post q em)) = fresh em
   /\ trace (snd (post q em)) = trace em ++ [Query "Post"])
  /\ (store (snd (Posts engine input limit offset em)) = store em
      /\ pending (snd (Posts engine input limit offset em)) = pending em
      /\ faults (snd (Posts engine input limit offset em)) = faults em
      /\ fresh (snd (Posts engine input limit offset em)) = fresh em
      /\ exists calls : list call,
           trace (snd (Posts engine input limit offset em))
           = trace em ++ calls
           /\ forall c, In c calls ->
                (exists entity id, c = Lookup entity id)
                \/ (exists entity, c = Query entity)).
Proof using.
  split.
  { unfold post, bind, findOne, ret.
    destruct (no_criterion q); repeat split. }
  unfold Posts, bind, try_catch, findOneOrFail, ret, find_page. cbv zeta.
  destruct (truthy (f_type input));
    [destruct (lookup Type_ (the (f_type input)) (store em))|];
    (destruct (truthy (f_writer input)); cbv beta;
     [rewrite ?store_log;
      destruct (lookup User (the (f_writer input)) (store em))|]);
    try (destruct (paging engine (default (num 10) limit)
                     (default (num 0) offset)) as [[lim off]|]);
    cbn; (do 4 (split; [reflexivity|]));
    rewrite <- ?app_assoc; eexists; (split; [reflexivity|]);
    intros c Hc; cbn in Hc;
    repeat (destruct Hc as [<-|Hc]; [eauto|]); contradiction.
Qed.


(** X3. What [Posts] lists.  Whenever [Posts] returns a list, every
    truthy identifier of its input resolved, and every post of the list
    is a post of the store that has the type asked for and the writer
    asked for, both when both are supplied.  When the identifiers
    resolve, the limit is a positive whole number and the offset a whole
    number from 0 on (10 and 0 when not supplied), the list is exactly
    the page of those posts, in store order: [offset] skipped, at most
    [limit] kept.  A limit of 0 is no limit. *)
Theorem Posts_applies_both_filters
  (em : EM) (input : PostsQueryInput) (limit offset : option number) :
  (forall l : list Post,
      fst (Posts engine input limit offset em) = Ok l ->
      (truthy (f_type input) = true ->
       lookup Type_ (the (f_type input)) (store em) <> None)
      /\ (truthy (f_writer input) = true ->
          lookup User (the (f_writer input)) (store em) <> None)
      /\ forall p, In p l ->
           In p (posts (store em))
           /\ (truthy (f_type input) = true ->
               type_id (post_type p) = the (f_type input))
           /\ (truthy (f_writer input) = true ->
               user_id (post_writer p) = the (f_writer input)))
  /\ ((truthy (f_type input) = true ->
       lookup Type_ (the (f_type input)) (store em) <> None) ->
      (truthy (f_writer input) = true ->
       lookup User (the (f_writer input)) (store em) <> None) ->
      forall o : nat,
        natural (default (num 0) offset) = Some o ->
        (forall k : nat,
            natural (default (num 10) limit) = Some (S k) ->
            fst (Posts engine input limit offset em)
            = Ok (firstn (S k)
                    (skipn o (filter (wanted input) (posts (store em)))))
            /\ length (firstn (S k)
                         (skipn o (filter (wanted input)
                                     (posts (store em))))) <= S k)
        /\ (natural (default (num 10) limit) = Some 0 ->
            fst (Posts engine input limit offset em)
            = Ok (skipn o (filter (wanted input) (posts (store em)))))).
Proof using.
  destruct (Posts_cases input limit offset em)
    as [(Et & Ht & Hr)|[(Ht & Ew & Hw & Hr)|(Ht & Hw & Hr)]];
    rewrite Hr.
  - split; [intros l Hl; discriminate|].
    intros H _. exfalso. exact (H Et Ht).
  - split; [intros l Hl; discriminate|].
    intros _ H. exfalso. exact (H Ew Hw).
  - split.
    + intros l Hl. split; [exact Ht|]. split; [exact Hw|].
      intros p Hp. apply (In_page engine _ _ _ _ p Hl), filter_In in Hp.
      destruct Hp as [Hin Hwant]. split; [exact Hin|].
      unfold wanted in Hwant. apply andb_true_iff in Hwant.
      destruct Hwant as [H1 H2].
      split; intros E; rewrite E in *; cbn in *;
        apply String.eqb_eq; assumption.
    + intros _ _ o Ho. unfold page. split.
      * intros k Hk. rewrite (paging_limit engine _ _ k o Hk Ho).
        split; [reflexivity|]. rewrite length_firstn. apply Nat.le_min_l.
      * intros Hk. rewrite (paging_no_limit engine _ _ o Hk Ho).
        reflexivity.
Qed.

(** ** What a mutation can throw, and what it leaves alone *)

Ltac createPost_outcome s fs n draft_id slug req_user :=
  destruct (createPost_cases s fs n draft_id slug req_user)
    as [(?Hu & ?Hr & ?Hs)
       |[(?Hd & ?Hr & ?Hs)
        |[(?u & ?d & ?Hu & ?Hd & ?Hne & ?Hr & ?Hs)
         |[(?d & ?Hu & ?Hd & ?Hc1 & ?Hr & ?Hs)
          |[(?d & ?Hu & ?Hd & ?Hc1 & ?Hc2 & ?Hr & ?Hs)
           |(?d & ?Hu & ?Hd & ?Hc2 & ?Hr & ?Hs)]]]]].

Ltac deletePost_outcome s fs n id req_user :=
  destruct (deletePost_cases s fs n id req_user)
    as [(?Hu & ?Hr & ?Hs)
       |[(?Hp & ?Hr & ?Hs)
        |[(?u & ?p & ?Hu & ?Hp & ?Hne & ?Hr & ?Hs)
         |[(?p & ?Hu & ?Hp & ?Hc1 & ?Hr & ?Hs)
          |(?p & ?Hu & ?Hp & ?Hc1 & ?Hr & ?Hs)]]]].

Ltac updatePost_outcome s fs n id req_user input :=
  destruct (updatePost_cases s fs n id req_user input)
    as [(?Hu & ?Hr & ?Hs)
       |[(?Hp & ?Hr & ?Hs)
        |[(?u & ?p & ?Hu & ?Hp & ?Hne & ?Hr & ?Hs)
         |[(?p & ?Hu & ?Hp & ?Hc1 & ?Hr & ?Hs)
          |(?p & ?Hu & ?Hp & ?Hc1 & ?Hr & ?Hs)]]]].

Lemma users_apply_change (s : Store) (c : change) :
  users (apply_change s c) = users s.
Proof using. destruct c; reflexivity. Qed.

Lemma types_apply_change (s : Store) (c : change) :
  types (apply_change s c) = types s.
Proof using. destruct c; reflexivity. Qed.

Lemma ids_after_update (p' : Post) (l : list Post) :
  map post_id (map (fun x => if post_id x =? post_id p' then p' else x) l)
  = map post_id l.
Proof using.
  rewrite map_map. apply map_ext. intros x.
  destruct (post_id x =? post_id p') eqn:E; [|reflexivity].
  apply String.eqb_eq in E. congruence.
Qed.

(** X4. [createPost] and [updatePost] only ever throw one of the three
    Apollo errors: each repository call they await sits in a try whose
    catch wraps what was thrown.  [deletePost] does not: its flush
    (line 166) is outside any try, and the driver's exception escapes
    unwrapped exactly when the caller is the post's writer and the
    store rejects the flush; in every other case its error is one of
    the three. *)
Theorem mutation_errors_typed_but_delete_flush
  (s : Store) (fs : list bool) (n : nat)
  (draft_id slug id req_user : string) (input : PostMutationInput) :
  typed (fst (createPost uuid draft_id slug req_user (fork s fs n)))
  /\ typed (fst (updatePost id input req_user (fork s fs n)))
  /\ (fst (deletePost id req_user (fork s fs n)) = Throw DriverException
      <-> exists p : Post,
            lookup User req_user s = Some (post_writer p)
            /\ lookup Post id s = Some p
            /\ commits 1 fs = false)
  /\ (fst (deletePost id req_user (fork s fs n)) <> Throw DriverException
      -> typed (fst (deletePost id req_user (fork s fs n)))).
Proof.
  split; [createPost_outcome s fs n draft_id slug req_user; rewrite Hr;
          exact I|].
  split; [updatePost_outcome s fs n id req_user input; rewrite Hr;
          exact I|].
  deletePost_outcome s fs n id req_user; rewrite Hr.
  - split; [split; [discriminate|]|intros _; exact I].
    intros (p' & Hu' & _). congruence.
  - split; [split; [discriminate|]|intros _; exact I].
    intros (p' & _ & Hp' & _). congruence.
  - split; [split; [discriminate|]|intros _; exact I].
    intros (p' & Hu' & Hp' & _). exfalso. apply Hne. congruence.
  - split; [split; [|reflexivity]|].
    + intros _. exists p. repeat split; assumption.
    + intros H. exfalso. apply H. reflexivity.
  - split; [split; [discriminate|]|intros _; exact I].
    intros (p' & _ & _ & Hc'). congruence.
Qed.

(** X5. A mutation that throws has changed nothing, with one exception.
    [updatePost] and [deletePost] are all or nothing: whenever they
    throw, the store is as it was.  [createPost] that throws leaves the
    store as it was unless the post was committed and the removal of
    the draft rejected: the store is then the old one plus the new
    post; in no throwing case does it lose the draft. *)
Theorem failed_mutation_leaves_store
  (s : Store) (fs : list bool) (n : nat)
  (draft_id slug id req_user : string) (input : PostMutationInput) :
  (forall e : exn,
      fst (updatePost id input req_user (fork s fs n)) = Throw e ->
      store (snd (updatePost id input req_user (fork s fs n))) = s)
  /\ (forall e : exn,
        fst (deletePost id req_user (fork s fs n)) = Throw e ->
        store (snd (deletePost id req_user (fork s fs n))) = s)
  /\ (forall e : exn,
        fst (createPost uuid draft_id slug req_user (fork s fs n))
        = Throw e ->
        (store (snd (createPost uuid draft_id slug req_user (fork s fs n)))
         = s
         \/ exists d : Draft,
              lookup Draft draft_id s = Some d
              /\ commits 1 fs = true /\ commits 2 fs = false
              /\ store (snd (createPost uuid draft_id slug req_user
                               (fork s fs n)))
                 = apply_change s (Persist (promoted uuid n slug d)))
        /\ drafts (store (snd (createPost uuid draft_id slug req_user
                                 (fork s fs n)))) = drafts s).
Proof.
  split; [|split].
  - intros e. updatePost_outcome s fs n id req_user input;
      rewrite Hr, Hs; try reflexivity. discriminate.
  - intros e. deletePost_outcome s fs n id req_user;
      rewrite Hr, Hs; try reflexivity. discriminate.
  - intros e. createPost_outcome s fs n draft_id slug req_user;
      rewrite Hr, Hs; try (intros _; split; [left|]; reflexivity).
    + intros _. split; [|reflexivity]. right. exists d.
      repeat split; assumption.
    + discriminate.
Qed.

(** X6. What the mutations never touch, whatever they return.  None of
    them changes the users or the types.  [updatePost] and [deletePost]
    leave the drafts alone; [updatePost] keeps the identifiers of the
    posts, in order; [deletePost] invents no post and keeps every post
    with another identifier; [createPost] keeps every post where it was,
    adds at most one at the end, invents no draft and keeps every draft
    with another identifier. *)
Theorem mutations_frame
  (s : Store) (fs : list bool) (n : nat)
  (did slug id req_user : string) (input : PostMutationInput) :
  (users (store (snd (createPost uuid did slug req_user (fork s fs n))))
   = users s
   /\ types (store (snd (createPost uuid did slug req_user
                           (fork s fs n)))) = types s
   /\ (exists l : list Post,
         posts (store (snd (createPost uuid did slug req_user
                              (fork s fs n)))) = posts s ++ l
         /\ length l <= 1)
   /\ (forall d : Draft,
         In d (drafts (store (snd (createPost uuid did slug req_user
                                     (fork s fs n))))) ->
         In d (drafts s))
   /\ (forall d : Draft,
         In d (drafts s) -> draft_id d <> did ->
         In d (drafts (store (snd (createPost uuid did slug req_user
                                     (fork s fs n)))))))
  /\ (users (store (snd (updatePost id input req_user (fork s fs n))))
      = users s
      /\ types (store (snd (updatePost id input req_user (fork s fs n))))
         = types s
      /\ drafts (store (snd (updatePost id input req_user (fork s fs n))))
         = drafts s
      /\ map post_id
           (posts (store (snd (updatePost id input req_user (fork s fs n)))))
         = map post_id (posts s))
  /\ (users (store (snd (deletePost id req_user (fork s fs n)))) = users s
      /\ types (store (snd (deletePost id req_user (fork s fs n))))
         = types s
      /\ drafts (store (snd (deletePost id req_user (fork s fs n))))
         = drafts s
      /\ (forall q : Post,
            In q (posts (store (snd (deletePost id req_user
                                       (fork s fs n))))) ->
            In q (posts s))
      /\ (forall q : Post,
            In q (posts s) -> post_id q <> id ->
            In q (posts (store (snd (deletePost id req_user
                                       (fork s fs n))))))).
Proof.
  split; [|split].
  - createPost_outcome s fs n did slug req_user; rewrite Hs;
      rewrite ?users_apply_change, ?types_apply_change;
      (split; [reflexivity|]); (split; [reflexivity|]).
    1-4: split; [exists []; rewrite app_nil_r; split; [reflexivity|];
                 simpl; lia|]; split; auto.
    + split; [exists [promoted uuid n slug d]; split; [reflexivity|];
              simpl; lia|]. split; auto.
    + split; [exists [promoted uuid n slug d]; split; [reflexivity|];
              simpl; lia|].
      pose proof (lookup_pk Draft _ _ _ Hd) as Hid. simpl in Hid.
      cbn. rewrite Hid. split.
      * intros d' Hin. apply filter_In in Hin. apply Hin.
      * intros d' Hin Hne. apply filter_In. split; [exact Hin|].
        apply String.eqb_neq in Hne. rewrite Hne. reflexivity.
  - updatePost_outcome s fs n id req_user input; rewrite Hs;
      rewrite ?users_apply_change, ?types_apply_change;
      repeat split.
    exact (ids_after_update (updated input p) (posts s)).
  - deletePost_outcome s fs n id req_user; rewrite Hs;
      rewrite ?users_apply_change, ?types_apply_change;
      (do 3 (split; [reflexivity|])).
    1-4: split; auto.
    pose proof (lookup_pk Post _ _ _ Hp) as Hid. simpl in Hid.
    cbn. rewrite Hid. split.
    + intros q Hin. apply filter_In in Hin. apply Hin.
    + intros q Hin Hne. apply filter_In. split; [exact Hin|].
      apply String.eqb_neq in Hne. rewrite Hne. reflexivity.
Qed.

(** ** User objects, and who can change the store *)

Lemma user_objects_apply_change (s : Store) (c : change) (w : User) :
  (forall p, c = Persist p \/ c = Dirty p ->
             In (post_writer p) (user_objects s)) ->
  In w (user_objects (apply_change s c)) -> In w (user_objects s).
Proof using.
  intros Hnew. unfold user_objects. destruct c as [p|d|p|p]; cbn.
  - rewrite map_app, !in_app_iff. cbn.
    intros [H|[H|[H|[<-|[]]]]]; auto.
    specialize (Hnew p (or_introl eq_refl)). unfold user_objects in Hnew.
    rewrite !in_app_iff in Hnew. exact Hnew.
  - rewrite !in_app_iff, !in_map_iff.
    intros [H|[(x & <- & Hx)|H]]; auto.
    apply filter_In in Hx. right. left. exists x. split; [reflexivity|].
    apply Hx.
  - rewrite !in_app_iff, !in_map_iff.
    intros [H|[H|(x & <- & Hx)]]; auto.
    apply filter_In in Hx. right. right. exists x. split; [reflexivity|].
    apply Hx.
  - rewrite !in_app_iff, !in_map_iff.
    intros [H|[H|(x & <- & Hx)]]; auto.
    apply in_map_iff in Hx. destruct Hx as (y & <- & Hy).
    destruct (post_id y =? post_id p).
    + specialize (Hnew p (or_intror eq_refl)). unfold user_objects in Hnew.
      rewrite !in_app_iff, !in_map_iff in Hnew. exact Hnew.
    + right. right. exists y. split; [reflexivity|exact Hy].
Qed.

Lemma identity_map_incl (s s' : Store) :
  (forall w, In w (user_objects s') -> In w (user_objects s)) ->
  identity_map s = true -> identity_map s' = true.
Proof using.
  intros Hincl Hm. unfold identity_map.
  apply forallb_forall. intros a Ha. apply forallb_forall. intros b Hb.
  destruct (user_id a =? user_id b) eqn:E; [|reflexivity]. simpl.
  apply same_object_true. apply String.eqb_eq in E.
  apply (identity_map_one_object s); auto.
Qed.

Lemma createPost_no_new_object (s : Store) (fs : list bool) (n : nat)
  (did slug req_user : string) (w : User) :
  In w (user_objects
          (store (snd (createPost uuid did slug req_user (fork s fs n))))) ->
  In w (user_objects s).
Proof.
  createPost_outcome s fs n did slug req_user; rewrite Hs; auto.
  - apply user_objects_apply_change. intros p [E|E]; inversion E.
    cbn. eapply draft_writer_object; eassumption.
  - intros Hin. apply user_objects_apply_change in Hin.
    + revert Hin. apply user_objects_apply_change.
      intros p [E|E]; inversion E.
      cbn. eapply draft_writer_object; eassumption.
    + intros p [E|E]; inversion E.
Qed.

Lemma updatePost_no_new_object (s : Store) (fs : list bool) (n : nat)
  (id req_user : string) (input : PostMutationInput) (w : User) :
  In w (user_objects
          (store (snd (updatePost id input req_user (fork s fs n))))) ->
  In w (user_objects s).
Proof using.
  updatePost_outcome s fs n id req_user input; rewrite Hs; auto.
  apply user_objects_apply_change. intros p' [E|E]; inversion E.
  cbn. eapply post_writer_object; eassumption.
Qed.

Lemma deletePost_no_new_object (s : Store) (fs : list bool) (n : nat)
  (id req_user : string) (w : User) :
  In w (user_objects (store (snd (deletePost id req_user (fork s fs n))))) ->
  In w (user_objects s).
Proof using.
  deletePost_outcome s fs n id req_user; rewrite Hs; auto.
  apply user_objects_apply_change. intros p' [E|E]; inversion E.
Qed.

(** X7. No mutation brings a new user object into the store: after
    [createPost], [updatePost] or [deletePost], whatever it returned,
    every user object the store hands out (a user of the repository, the
    writer of a draft or of a post) was one before.  So a store that has
    one object per user row still has after the request, and the
    ownership check by reference keeps meaning what it meant. *)
Theorem mutations_keep_identity_map
  (s : Store) (fs : list bool) (n : nat)
  (did slug id req_user : string) (input : PostMutationInput)
  (Hmap : identity_map s = true) :
  identity_map
    (store (snd (createPost uuid did slug req_user (fork s fs n)))) = true
  /\ identity_map
       (store (snd (updatePost id input req_user (fork s fs n)))) = true
  /\ identity_map (store (snd (deletePost id req_user (fork s fs n))))
     = true
  /\ (forall w : User,
        (In w (user_objects
                 (store (snd (createPost uuid did slug req_user
                                (fork s fs n)))))
         \/ In w (user_objects
                    (store (snd (updatePost id input req_user
                                   (fork s fs n)))))
         \/ In w (user_objects
                    (store (snd (deletePost id req_user (fork s fs n)))))) ->
        In w (user_objects s)).
Proof.
  split; [|split; [|split]].
  - apply (identity_map_incl s); [|exact Hmap].
    intros w. apply createPost_no_new_object.
  - apply (identity_map_incl s); [|exact Hmap].
    intros w. apply updatePost_no_new_object.
  - apply (identity_map_incl s); [|exact Hmap].
    intros w. apply deletePost_no_new_object.
  - intros w [H|[H|H]].
    + eapply createPost_no_new_object; eassumption.
    + eapply updatePost_no_new_object; eassumption.
    + eapply deletePost_no_new_object; eassumption.
Qed.

(** X8. Only the writer changes the store.  If the store after a
    mutation differs from the store before, then the target resolved,
    the acting user resolved to the very object that is the target's
    writer, and the store committed the first flush; for [updatePost]
    and [deletePost] the call then succeeded. *)
Theorem only_the_writer_changes_store
  (s : Store) (fs : list bool) (n : nat)
  (did slug id req_user : string) (input : PostMutationInput) :
  (store (snd (createPost uuid did slug req_user (fork s fs n))) <> s ->
   exists d : Draft,
     lookup Draft did s = Some d
     /\ lookup User req_user s = Some (draft_writer d)
     /\ commits 1 fs = true)
  /\ (store (snd (updatePost id input req_user (fork s fs n))) <> s ->
      exists p : Post,
        lookup Post id s = Some p
        /\ lookup User req_user s = Some (post_writer p)
        /\ commits 1 fs = true
        /\ fst (updatePost id input req_user (fork s fs n))
           = Ok (updated input p))
  /\ (store (snd (deletePost id req_user (fork s fs n))) <> s ->
      exists p : Post,
        lookup Post id s = Some p
        /\ lookup User req_user s = Some (post_writer p)
        /\ commits 1 fs = true
        /\ fst (deletePost id req_user (fork s fs n)) = Ok true).
Proof.
  split; [|split].
  - createPost_outcome s fs n did slug req_user; rewrite Hs; intros Hch;
      try (exfalso; apply Hch; reflexivity).
    + exists d. repeat split; assumption.
    + exists d. repeat split; try assumption.
      destruct fs as [|[|] fs]; [reflexivity|discriminate|reflexivity].
  - updatePost_outcome s fs n id req_user input; rewrite Hs; intros Hch;
      try (exfalso; apply Hch; reflexivity).
    exists p. repeat split; assumption.
  - deletePost_outcome s fs n id req_user; rewrite Hs; intros Hch;
      try (exfalso; apply Hch; reflexivity).
    exists p. repeat split; assumption.
Qed.

(** ** One request after another *)

Lemma lookup_User_apply_change (s : Store) (c : change) (id : string) :
  lookup User id (apply_change s c) = lookup User id s.
Proof using.
  unfold lookup. cbn [table User_entity]. rewrite users_apply_change.
  reflexivity.
Qed.

Lemma find_same (A : Type) (f g : A -> bool) (l : list A) :
  (forall x, f x = g x) -> find f l = find g l.
Proof using.
  intros E. induction l as [|a l IH]; simpl; [reflexivity|].
  rewrite E, IH. reflexivity.
Qed.

Lemma find_last (A : Type) (f : A -> bool) (l : list A) (x : A) :
  find f l = None -> f x = true -> find f (l ++ [x]) = Some x.
Proof using.
  intros Hn Hx. induction l as [|a l IH]; simpl in *.
  - rewrite Hx. reflexivity.
  - destruct (f a); [discriminate|]. apply IH, Hn.
Qed.

Lemma find_after_update (id : string) (p0 p' : Post) (l : list Post) :
  post_id p' = id ->
  find (fun x => post_id x =? id) l = Some p0 ->
  find (fun x => post_id x =? id)
       (map (fun x => if post_id x =? post_id p' then p' else x) l)
  = Some p'.
Proof using.
  intros Hid. rewrite Hid. induction l as [|a l IH]; simpl; [discriminate|].
  destruct (post_id a =? id) eqn:E.
  - intros _. rewrite Hid, String.eqb_refl. reflexivity.
  - intros H. rewrite E. apply IH, H.
Qed.

Lemma update_twice (p' : Post) (l : list Post) :
  map (fun x => if post_id x =? post_id p' then p' else x)
      (map (fun x => if post_id x =? post_id p' then p' else x) l)
  = map (fun x => if post_id x =? post_id p' then p' else x) l.
Proof using.
  rewrite map_map. apply map_ext. intros x.
  destruct (post_id x =? post_id p') eqn:E.
  - rewrite String.eqb_refl. reflexivity.
  - rewrite E. reflexivity.
Qed.

(** A query by identifier returns what the repository holds for it. *)
Lemma post_by_id (s : Store) (fs : list bool) (n : nat) (id : string) :
  fst (post (by_id id) (fork s fs n)) = Ok (lookup Post id s).
Proof using.
  unfold post, bind, findOne, ret, lookup. cbn. f_equal.
  apply find_same. intros x. unfold meets, by_id. cbn.
  rewrite !andb_true_r. apply String.eqb_sym.
Qed.

(** X9. A draft is promoted once.  After a [createPost] that returned a
    post, any later [createPost] for the same draft identifier, by
    whomever and with whatever slug, throws (AuthenticationError for an
    unknown user, UserInputError "Draft not found" otherwise) and
    leaves the store as the first call made it: the draft cannot yield
    a second post. *)
Theorem draft_is_promoted_once
  (s : Store) (fs : list bool) (n : nat) (did slug req_user : string)
  (p : Post)
  (Hok : fst (createPost uuid did slug req_user (fork s fs n)) = Ok p) :
  forall (fs2 : list bool) (n2 : nat) (slug2 req_user2 : string),
    (lookup User req_user2 s = None ->
     fst (createPost uuid did slug2 req_user2
            (fork (store (snd (createPost uuid did slug req_user
                                 (fork s fs n)))) fs2 n2))
     = Throw (AuthenticationError (NotFoundError "User")))
    /\ (lookup User req_user2 s <> None ->
        fst (createPost uuid did slug2 req_user2
               (fork (store (snd (createPost uuid did slug req_user
                                    (fork s fs n)))) fs2 n2))
        = Throw (UserInputError (NotFoundError "Draft")))
    /\ store (snd (createPost uuid did slug2 req_user2
                     (fork (store (snd (createPost uuid did slug req_user
                                          (fork s fs n)))) fs2 n2)))
       = store (snd (createPost uuid did slug req_user (fork s fs n))).
Proof.
  intros fs2 n2 slug2 req_user2.
  createPost_outcome s fs n did slug req_user; rewrite Hr in Hok;
    try discriminate Hok.
  rewrite Hs.
  pose proof (lookup_pk Draft _ _ _ Hd) as Hid. simpl in Hid.
  set (s' := apply_change (apply_change s (Persist (promoted uuid n slug d)))
               (RemoveDraft d)).
  assert (Hgone : lookup Draft did s' = None).
  { unfold s', lookup. cbn. rewrite <- Hid.
    apply (find_after_delete Draft draft_id). }
  assert (Husers : lookup User req_user2 s' = lookup User req_user2 s).
  { unfold s'. rewrite !lookup_User_apply_change. reflexivity. }
  destruct (lookup User req_user2 s) as [u2|] eqn:Hu2.
  - rewrite (createPost_draft_missing (fork s' fs2 n2) did slug2 req_user2
               u2 Husers Hgone).
    repeat split. intros H. discriminate H.
  - rewrite (createPost_unauthenticated (fork s' fs2 n2) did slug2 req_user2
               Husers).
    repeat split. intros H. exfalso. apply H. reflexivity.
Qed.

(** X10. A deleted post stays deleted for the rest of the interface.
    After a [deletePost] that returned [true], a later [deletePost] or
    [updatePost] on that identifier by a known user throws UserInputError
    "Post not found", and no [Posts] query lists a post with that
    identifier, whatever its filters and paging. *)
Theorem deleted_post_is_gone
  (s : Store) (fs : list bool) (n : nat) (id req_user : string)
  (Hok : fst (deletePost id req_user (fork s fs n)) = Ok true) :
  forall (fs2 : list bool) (n2 : nat) (req_user2 : string),
    (lookup User req_user2 s <> None ->
     fst (deletePost id req_user2
            (fork (store (snd (deletePost id req_user (fork s fs n))))
                  fs2 n2))
     = Throw (UserInputError (NotFoundError "Post"))
     /\ forall input : PostMutationInput,
          fst (updatePost id input req_user2
                 (fork (store (snd (deletePost id req_user (fork s fs n))))
                       fs2 n2))
          = Throw (UserInputError (NotFoundError "Post")))
    /\ (forall (f : PostsQueryInput) (limit offset : option number)
               (l : list Post),
          fst (Posts engine f limit offset
                 (fork (store (snd (deletePost id req_user (fork s fs n))))
                       fs2 n2)) = Ok l ->
          forall q, In q l -> post_id q <> id).
Proof using.
  intros fs2 n2 req_user2.
  deletePost_outcome s fs n id req_user; rewrite Hr in Hok;
    try discriminate Hok.
  rewrite Hs.
  pose proof (lookup_pk Post _ _ _ Hp) as Hid. simpl in Hid.
  set (s' := apply_change s (RemovePost p)).
  assert (Hgone : lookup Post id s' = None).
  { unfold s', lookup. cbn. rewrite <- Hid.
    apply (find_after_delete Post post_id). }
  assert (Husers : lookup User req_user2 s' = lookup User req_user2 s).
  { unfold s'. apply lookup_User_apply_change. }
  split.
  - intros Hknown.
    destruct (lookup User req_user2 s) as [u2|] eqn:Hu2;
      [|exfalso; apply Hknown; reflexivity].
    rewrite (deletePost_post_missing (fork s' fs2 n2) id req_user2 u2
               Husers Hgone).
    split; [reflexivity|]. intros input.
    rewrite (updatePost_post_missing (fork s' fs2 n2) id req_user2 input u2
               Husers Hgone).
    reflexivity.
  - intros f limit offset l Hl q Hq.
    destruct (Posts_cases f limit offset (fork s' fs2 n2))
      as [(_ & _ & Hr')|[(_ & _ & _ & Hr')|(_ & _ & Hr')]];
      rewrite Hr' in Hl; try discriminate Hl.
    apply (In_page engine _ _ _ _ q Hl), filter_In in Hq.
    destruct Hq as [Hq _]. unfold s' in Hq. cbn in Hq.
    apply filter_In in Hq. destruct Hq as [_ Hq].
    rewrite <- Hid. apply String.eqb_neq.
    apply negb_true_iff in Hq. exact Hq.
Qed.

(** X11. Reading back an update, and updating twice.  After an
    [updatePost] that returned a post, a [post] query by that
    identifier returns that very post; and repeating the same
    [updatePost] (same identifier, input and user, on a store that
    commits) returns the same post and leaves the store as the first
    call made it. *)
Theorem updatePost_read_back_and_repeat
  (s : Store) (fs : list bool) (n : nat) (id req_user : string)
  (input : PostMutationInput) (p : Post)
  (Hok : fst (updatePost id input req_user (fork s fs n)) = Ok p) :
  forall (fs2 : list bool) (n2 : nat),
    fst (post (by_id id)
           (fork (store (snd (updatePost id input req_user (fork s fs n))))
                 fs2 n2))
    = Ok (Some p)
    /\ (commits 1 fs2 = true ->
        fst (updatePost id input req_user
               (fork (store (snd (updatePost id input req_user
                                    (fork s fs n)))) fs2 n2))
        = Ok p
        /\ store (snd (updatePost id input req_user
                         (fork (store (snd (updatePost id input req_user
                                              (fork s fs n)))) fs2 n2)))
           = store (snd (updatePost id input req_user (fork s fs n)))).
Proof using.
  intros fs2 n2.
  updatePost_outcome s fs n id req_user input; rewrite Hr in Hok;
    try discriminate Hok.
  injection Hok as <-. rewrite Hs.
  pose proof (lookup_pk Post _ _ _ Hp) as Hid. simpl in Hid.
  set (p' := updated input p0).
  set (s' := apply_change s (Dirty p')).
  assert (Hid' : post_id p' = id) by exact Hid.
  assert (Hfound : lookup Post id s' = Some p').
  { unfold s', lookup. cbn [table Post_entity apply_change posts pk].
    apply (find_after_update id p0 p' (posts s) Hid'). exact Hp. }
  assert (Husers : lookup User req_user s' = Some (post_writer p')).
  { unfold s'. rewrite lookup_User_apply_change. exact Hu. }
  split.
  - rewrite post_by_id, Hfound. reflexivity.
  - intros Hc2.
    rewrite (updatePost_head (fork s' fs2 n2) id req_user input
               (post_writer p') p' Husers Hfound).
    rewrite same_object_refl.
    destruct fs2 as [|[|] fs2]; try discriminate Hc2; cbn;
      (split; [reflexivity|]);
      unfold s'; cbn; f_equal;
      exact (update_twice p' (posts s)).
Qed.

(** X12. Reading back a promotion.  After a [createPost] that returned
    a post, a [post] query by the identifier of that post returns that
    very post, provided no post of the store already had that
    identifier (otherwise the query returns the older one, which comes
    first in the store). *)
Theorem createPost_read_back
  (s : Store) (fs : list bool) (n : nat) (did slug req_user : string)
  (p : Post)
  (Hok : fst (createPost uuid did slug req_user (fork s fs n)) = Ok p)
  (Hnew : lookup Post (post_id p) s = None) :
  forall (fs2 : list bool) (n2 : nat),
    fst (post (by_id (post_id p))
           (fork (store (snd (createPost uuid did slug req_user
                                (fork s fs n)))) fs2 n2))
    = Ok (Some p).
Proof.
  createPost_outcome s fs n did slug req_user; rewrite Hr in Hok;
    try discriminate Hok.
  injection Hok as <-. rewrite Hs.
  intros fs2 n2. rewrite post_by_id. f_equal.
  unfold lookup. cbn.
  apply find_last; [exact Hnew|]. cbn. apply String.eqb_refl.
Qed.

(** X14. Retrying after the half-done promotion duplicates the post.
    When [createPost] by the draft's writer committed the post and the
    store rejected the removal of the draft, the call threw; the same
    call made again on a store that commits succeeds, and the store
    then holds two posts built from the one draft, the draft being
    gone. *)
Theorem retry_after_failed_removal_duplicates
  (s : Store) (fs fs2 : list bool) (n n2 : nat) (did slug req_user : string)
  (d : Draft)
  (Hu : lookup User req_user s = Some (draft_writer d))
  (Hd : lookup Draft did s = Some d)
  (Hc1 : commits 1 fs = true)
  (Hc2 : commits 2 fs = false)
  (Hok : commits 2 fs2 = true) :
  fst (createPost uuid did slug req_user (fork s fs n))
  = Throw (UserInputError DriverException)
  /\ fst (createPost uuid did slug req_user
            (fork (store (snd (createPost uuid did slug req_user
                                 (fork s fs n)))) fs2 n2))
     = Ok (promoted uuid n2 slug d)
  /\ posts (store (snd (createPost uuid did slug req_user
                          (fork (store (snd (createPost uuid did slug
                                               req_user (fork s fs n))))
                                fs2 n2))))
     = posts s ++ [promoted uuid n slug d; promoted uuid n2 slug d]
  /\ lookup Draft did
       (store (snd (createPost uuid did slug req_user
                      (fork (store (snd (createPost uuid did slug req_user
                                           (fork s fs n)))) fs2 n2))))
     = None.
Proof.
  pose proof (lookup_pk Draft _ _ _ Hd) as Hid. simpl in Hid.
  assert (H1 :
    fst (createPost uuid did slug req_user (fork s fs n))
    = Throw (UserInputError DriverException)
    /\ store (snd (createPost uuid did slug req_user (fork s fs n)))
       = apply_change s (Persist (promoted uuid n slug d))).
  { rewrite (createPost_head uuid (fork s fs n) did slug req_user
               (draft_writer d) d Hu Hd), same_object_refl.
    destruct fs as [|[|] [|[|] fs]]; try discriminate Hc1;
      try discriminate Hc2; split; reflexivity. }
  destruct H1 as [H1 Hs1]. rewrite Hs1. split; [exact H1|].
  set (s1 := apply_change s (Persist (promoted uuid n slug d))).
  assert (Hu1 : lookup User req_user s1 = Some (draft_writer d)).
  { unfold s1. rewrite lookup_User_apply_change. exact Hu. }
  assert (Hd1 : lookup Draft did s1 = Some d) by exact Hd.
  rewrite (createPost_head uuid (fork s1 fs2 n2) did slug req_user
             (draft_writer d) d Hu1 Hd1), same_object_refl.
  destruct fs2 as [|[|] [|[|] fs2]]; try discriminate Hok; cbn;
    (split; [reflexivity|]);
    (split; [rewrite <- app_assoc; reflexivity|]);
    unfold lookup; cbn; rewrite <- Hid;
    apply (find_after_delete Draft draft_id).
Qed.

Lemma NoDup_map_filter (A B : Type) (g : A -> B) (f : A -> bool)
  (l : list A) :
  NoDup (map g l) -> NoDup (map g (filter f l)).
Proof using.
  induction l as [|a l IH]; simpl; [auto|].
  intros H. inversion H as [|x xs Hnotin Hnd]; subst.
  destruct (f a); simpl; [|apply IH, Hnd].
  constructor; [|apply IH, Hnd].
  intros Hin. apply Hnotin. apply in_map_iff in Hin.
  destruct Hin as (y & Hy & Hin). apply filter_In in Hin.
  apply in_map_iff. exists y. split; [exact Hy|apply Hin].
Qed.

(** X13. The mutations keep the identifiers of the posts distinct.  If
    no two posts of the store share an identifier, this still holds
    after [updatePost] and after [deletePost], whatever they returned,
    and after [createPost] provided the identifier the generator hands
    out is not already that of a post. *)
Theorem post_identifiers_stay_distinct
  (s : Store) (fs : list bool) (n : nat)
  (did slug id req_user : string) (input : PostMutationInput)
  (Hnd : NoDup (map post_id (posts s))) :
  NoDup (map post_id
           (posts (store (snd (updatePost id input req_user
                                 (fork s fs n))))))
  /\ NoDup (map post_id
              (posts (store (snd (deletePost id req_user (fork s fs n))))))
  /\ (lookup Post (uuid n) s = None ->
      NoDup (map post_id
               (posts (store (snd (createPost uuid did slug req_user
                                     (fork s fs n))))))).
Proof.
  split; [|split].
  - updatePost_outcome s fs n id req_user input; rewrite Hs; auto.
    cbn [apply_change posts].
    rewrite (ids_after_update (updated input p) (posts s)). exact Hnd.
  - deletePost_outcome s fs n id req_user; rewrite Hs; auto.
    cbn [apply_change posts]. apply NoDup_map_filter, Hnd.
  - intros Hnew.
    assert (Hadd : forall d : Draft,
              NoDup (map post_id (posts s ++ [promoted uuid n slug d]))).
    { intros d. rewrite map_app. apply NoDup_app; [exact Hnd| |].
      - cbn. constructor; [intros []|constructor].
      - intros a Ha [<-|[]]. apply in_map_iff in Ha.
        destruct Ha as (x & Hx & Hin).
        unfold lookup in Hnew. apply (find_none _ _ Hnew) in Hin.
        cbn in Hin, Hx. rewrite Hx, String.eqb_refl in Hin.
        discriminate. }
    createPost_outcome s fs n did slug req_user; rewrite Hs; auto;
      apply Hadd.
Qed.

End Outcomes.

(** ** The further statements on the small blog *)

Lemma mutations_keep_identity_map_witness :
  identity_map blog = true
  /\ identity_map
       (store (snd (createPost gen "d1" "lists" "alice" (fork blog [] 0))))
     = true.
Proof.
  split; [reflexivity|].
  exact (proj1 (mutations_keep_identity_map gen blog [] 0 "d1" "lists" "p1"
                  "alice" edit eq_refl)).
Defined.

Lemma draft_is_promoted_once_witness :
  fst (createPost gen "d1" "lists" "alice" (fork blog [] 0))
  = Ok (promoted gen 0 "lists" draft1)
  /\ fst (createPost gen "d1" "again" "alice"
            (fork (store (snd (createPost gen "d1" "lists" "alice"
                                 (fork blog [] 0)))) [] 1))
     = Throw (UserInputError (NotFoundError "Draft")).
Proof.
  split; [reflexivity|].
  destruct (draft_is_promoted_once gen blog [] 0 "d1" "lists" "alice"
              (promoted gen 0 "lists" draft1) eq_refl [] 1 "again" "alice")
    as (_ & Hknown & _).
  apply Hknown. discriminate.
Defined.

Lemma deleted_post_is_gone_witness :
  fst (deletePost "p1" "alice" (fork blog2 [] 0)) = Ok true
  /\ fst (updatePost "p1" edit "alice"
            (fork (store (snd (deletePost "p1" "alice" (fork blog2 [] 0))))
                  [] 0))
     = Throw (UserInputError (NotFoundError "Post")).
Proof.
  split; [reflexivity|].
  destruct (deleted_post_is_gone strict blog2 [] 0 "p1" "alice" eq_refl [] 0
              "alice") as (Hknown & _).
  assert (Hu : lookup User "alice" blog2 <> None) by discriminate.
  destruct (Hknown Hu) as (_ & Hupd). apply Hupd.
Defined.

Lemma updatePost_read_back_and_repeat_witness :
  fst (updatePost "p1" edit "alice" (fork blog2 [] 0))
  = Ok (updated edit post1)
  /\ fst (post (by_id "p1")
            (fork (store (snd (updatePost "p1" edit "alice"
                                 (fork blog2 [] 0)))) [] 0))
     = Ok (Some (updated edit post1)).
Proof.
  split; [reflexivity|].
  exact (proj1 (updatePost_read_back_and_repeat blog2 [] 0 "p1" "alice" edit
                  (updated edit post1) eq_refl [] 0)).
Defined.

Lemma createPost_read_back_witness :
  fst (createPost gen "d1" "lists" "alice" (fork blog [] 0))
  = Ok (promoted gen 0 "lists" draft1)
  /\ lookup Post (post_id (promoted gen 0 "lists" draft1)) blog = None
  /\ fst (post (by_id "post-new")
            (fork (store (snd (createPost gen "d1" "lists" "alice"
                                 (fork blog [] 0)))) [] 1))
     = Ok (Some (promoted gen 0 "lists" draft1)).
Proof.
  split; [reflexivity|]. split; [reflexivity|].
  exact (createPost_read_back gen blog [] 0 "d1" "lists" "alice"
           (promoted gen 0 "lists" draft1) eq_refl eq_refl [] 1).
Defined.

Lemma retry_after_failed_removal_duplicates_witness :
  lookup User "alice" blog = Some (draft_writer draft1)
  /\ lookup Draft "d1" blog = Some draft1
  /\ commits 1 [false; true] = true
  /\ commits 2 [false; true] = false
  /\ commits 2 [] = true
  /\ posts (store (snd (createPost gen "d1" "lists" "alice"
                          (fork (store (snd (createPost gen "d1" "lists"
                                               "alice"
                                               (fork blog [false; true] 0))))
                                [] 1))))
     = [post1; promoted gen 0 "lists" draft1; promoted gen 1 "lists" draft1].
Proof.
  do 5 (split; [reflexivity|]).
  destruct (retry_after_failed_removal_duplicates gen blog [false; true] []
              0 1 "d1" "lists" "alice" draft1 eq_refl eq_refl eq_refl
              eq_refl eq_refl) as (_ & _ & Hposts & _).
  exact Hposts.
Defined.

Lemma post_identifiers_stay_distinct_witness :
  NoDup (map post_id (posts blog2))
  /\ NoDup (map post_id
              (posts (store (snd (deletePost "p1" "alice"
                                    (fork blog2 [] 0)))))).
Proof.
  assert (Hnd : NoDup (map post_id (posts blog2))).
  { cbn. constructor.
    - intros [H|[]]. discriminate H.
    - constructor; [intros []|constructor]. }
  split; [exact Hnd|].
  destruct (post_identifiers_stay_distinct gen blog2 [] 0 "d1" "lists" "p1"
              "alice" edit Hnd) as (_ & Hdel & _).
  exact Hdel.
Defined.


Lemma Posts_applies_both_filters_witness :
  length (filter (wanted {| f_type := Some "news"; f_writer := Some "bob" |})
            (posts archive)) = 12
  /\ fst (Posts strict {| f_type := Some "news"; f_writer := Some "bob" |}
            (Some (num 5)) (Some (num 2)) (fork archive [] 0))
     = Ok (map (article news 65) [5; 7; 9; 11; 13])
  /\ fst (Posts strict {| f_type := Some "news"; f_writer := Some "bob" |}
            (Some (num 0)) (Some (num 10)) (fork archive [] 0))
     = Ok (map (article news 65) [21; 23]).
Proof.
  split; [reflexivity|].
  destruct (Posts_applies_both_filters strict (fork archive [] 0)
              {| f_type := Some "news"; f_writer := Some "bob" |}
              (Some (num 5)) (Some (num 2))) as (_ & Hpage).
  destruct (Posts_applies_both_filters strict (fork archive [] 0)
              {| f_type := Some "news"; f_writer := Some "bob" |}
              (Some (num 0)) (Some (num 10))) as (_ & Hall).
  assert (Ht : truthy (Some "news") = true ->
               lookup Type_ "news" archive <> None) by discriminate.
  assert (Hw : truthy (Some "bob") = true ->
               lookup User "bob" archive <> None) by discriminate.
  split.
  - destruct (Hpage Ht Hw 2 eq_refl) as (Hlim & _).
    exact (proj1 (Hlim 4 eq_refl)).
  - destruct (Hall Ht Hw 10 eq_refl) as (_ & Hno).
    exact (Hno eq_refl).
Defined.
